(** * k8s-cicd-lab: the NestJS info provider and the React dashboard poller

    A shallow embedding of
    - [services/backend/src/app.service.ts] and [app.controller.ts]
      (the three read endpoints), and
    - the dashboard component [App] (its refresh cycle [fetchData] and the
      uptime formatter [formatUptime]),
    followed by the properties the specification states about them.

    Conventions of the embedding:
    - a JavaScript [number] is first an exact rational ([Q]): finite
      values, arithmetic without rounding; an integer-valued number (the
      result of [Math.floor]) is a [Z]. The uptime formatter is then given
      twice more, with divisions that round ([Rounded]) and on binary64
      values themselves ([Double]);
    - an instant ([Date]) is its time value, milliseconds since the epoch,
      and an ISO timestamp is the string [Date.prototype.toISOString]
      renders it to;
    - [process.env] is a finite map from variable names to strings;
    - an awaited promise is given by how it settles (or that it never does),
      and the body of the [async] function is written in a small monad that
      threads the React state and carries the thrown value. That monad
      runs a cycle in one piece; [Overlap] runs cycles [await] by [await],
      so that the steps of several cycles interleave. *)

From Stdlib Require Import ZArith QArith Qround Qpower DecimalString Lia Lqa
  OrderedTypeEx.
From Stdlib Require DecimalPos DecimalZ.
From Stdlib Require Import SpecFloat.
From stdpp Require Import base gmap strings.

Local Open Scope Z_scope.

(* ===================================================================== *)
(** ** The JavaScript runtime, as far as the sources use it *)
(* ===================================================================== *)

Module JS.

(** What a [throw], or a rejected promise, carries: an instance of
    [Error] (a [TypeError] from [fetch], a [SyntaxError] from [json()],
    the [Error] the code builds itself), or any other value. *)
Inductive Thrown : Type :=
| ErrorObject (message : string)
| NonError (shown : string).

(** [a || b] on [string | undefined]: the empty string and [undefined]
    are the falsy values. *)
Definition or_else (a : option string) (b : string) : string :=
  match a with
  | Some EmptyString => b
  | Some s => s
  | None => b
  end.

(** [Math.floor] *)
Definition Math_floor (x : Q) : Z := Qfloor x.

(** Rounding towards zero, the quotient that [%] uses. *)
Definition truncate (x : Q) : Z :=
  if Qle_bool 0 x then Qfloor x else Qceiling x.

(** [a % b]: the remainder has the sign of the dividend. *)
Definition rem (a b : Q) : Q :=
  (a - b * inject_Z (truncate (a / b)))%Q.

(** Number-to-string conversion of an integer-valued number, as a
    template literal performs it: decimal digits, a leading minus sign.
    JavaScript prints every digit so for whole numbers below 2^53 in
    magnitude; from 2^53 on it prints the shortest digits that read back
    as the same binary64 value, and from 10^21 on an exponent. *)
Definition Number_toString (n : Z) : string :=
  NilZero.string_of_int (Z.to_int n).

(** [s.padStart(width, "0")] *)
Fixpoint zeros (n : nat) : string :=
  match n with
  | O => EmptyString
  | S k => "0" +:+ zeros k
  end.

Definition padStart0 (width : nat) (s : string) : string :=
  zeros (width - String.length s) +:+ s.

(** *** [Date.prototype.toISOString] *)

Definition msPerDay : Z := 86400000.

(** Year, month (1 to 12) and day of month of a day number counted from
    1970-01-01, in the proleptic Gregorian calendar. *)
Definition civil_from_days (day : Z) : Z * Z * Z :=
  let z := day + 719468 in
  let era := z / 146097 in
  let doe := z mod 146097 in
  let yoe := (doe - doe / 1460 + doe / 36524 - doe / 146096) / 365 in
  let doy := doe - (365 * yoe + yoe / 4 - yoe / 100) in
  let mp := (5 * doy + 2) / 153 in
  let d := doy - (153 * mp + 2) / 5 + 1 in
  let m := if mp <? 10 then mp + 3 else mp - 9 in
  let y := yoe + era * 400 + (if m <=? 2 then 1 else 0) in
  (y, m, d).

Definition pad (width : nat) (n : Z) : string :=
  padStart0 width (Number_toString n).

Definition year_string (y : Z) : string :=
  if (0 <=? y) && (y <=? 9999) then pad 4 y
  else if y <? 0 then "-" +:+ pad 6 (- y)
  else "+" +:+ pad 6 y.

Definition Date_toISOString (t : Z) : string :=
  let '(y, m, d) := civil_from_days (t / msPerDay) in
  let ms := t mod msPerDay in
  year_string y +:+ "-" +:+ pad 2 m +:+ "-" +:+ pad 2 d
    +:+ "T" +:+ pad 2 (ms / 3600000)
    +:+ ":" +:+ pad 2 (ms / 60000 mod 60)
    +:+ ":" +:+ pad 2 (ms / 1000 mod 60)
    +:+ "." +:+ pad 3 (ms mod 1000) +:+ "Z".

End JS.

(** The ambient facts of the backend process that the service reads. *)
Module Process.

Record t : Type := {
  now : Z;                      (* the clock read by [new Date()] *)
  uptime : Q;                   (* [process.uptime()], in seconds *)
  env : gmap string string;     (* [process.env] *)
  version : string              (* [process.version] *)
}.

End Process.

(* ===================================================================== *)
(** ** services/backend/src/app.service.ts *)
(* ===================================================================== *)

Module AppService.

Record Health : Type := {
  status : string;
  timestamp : string;
  uptime : Q
}.

Record Info : Type := {
  name : string;
  version : string;
  environment : string;
  nodeVersion : string
}.

Definition getHello : string := "Hello from NestJS Backend!".

Definition getHealth (p : Process.t) : Health :=
  {| status := "ok";
     timestamp := JS.Date_toISOString (Process.now p);
     uptime := Process.uptime p |}.

Definition getInfo (p : Process.t) : Info :=
  {| name := "K8s CI/CD Lab Backend";
     version := "1.0.0";
     environment := JS.or_else (Process.env p !! "NODE_ENV") "development";
     nodeVersion := Process.version p |}.

End AppService.

(* ===================================================================== *)
(** ** services/backend/src/app.controller.ts *)
(* ===================================================================== *)

(** The controller mounted at [/api]: each route hands over to the
    service. *)
Module AppController.

Definition getHello : string := AppService.getHello.

Definition getHealth (p : Process.t) : AppService.Health :=
  AppService.getHealth p.

Definition getInfo (p : Process.t) : AppService.Info :=
  AppService.getInfo p.

End AppController.

(* ===================================================================== *)
(** ** The Fetch API, as far as the dashboard uses it *)
(* ===================================================================== *)

Module Fetch.

(** How an awaited promise turns out: fulfilled with a value, rejected
    with a reason, or never settled (a request that hangs). *)
Inductive Settled (A : Type) : Type :=
| Fulfilled (a : A)
| Rejected (reason : JS.Thrown)
| Pending.

Arguments Fulfilled {A} a.
Arguments Rejected {A} reason.
Arguments Pending {A}.

(** A response: its HTTP status, and what reading its body gives
    ([json()] for the health and info responses, [text()] for the
    greeting). [json()] gives whatever JSON value the body holds, and the
    component stores it unchecked at the type it declares. Here a parsed
    body is a value of the declared type: a body that parses to something
    else ([null], a number, an object without these fields) is not
    described. *)
Record Response (A : Type) : Type := {
  status : Z;
  body : Settled A
}.

Arguments status {A} _.
Arguments body {A} _.

(** [response.ok]: the status is in the range 200 to 299. *)
Definition ok {A} (r : Response A) : bool :=
  (200 <=? status r) && (status r <=? 299).

End Fetch.

(* ===================================================================== *)
(** ** The dashboard component [App] *)
(* ===================================================================== *)

Module App.

Import Fetch.

Record HealthData : Type := {
  status : string;
  timestamp : string;
  uptime : Q
}.

Record InfoData : Type := {
  name : string;
  version : string;
  environment : string;
  nodeVersion : string
}.

(** The six [useState] cells of the component. *)
Record ViewState : Type := {
  health : option HealthData;
  info : option InfoData;
  message : string;
  loading : bool;
  error : option string;
  lastRefresh : Z
}.

(** The state the component is mounted with, at instant [mounted]. *)
Definition initial (mounted : Z) : ViewState :=
  {| health := None; info := None; message := EmptyString;
     loading := true; error := None; lastRefresh := mounted |}.

(** *** Statements of an [async] function over the view state *)

(** How a statement completes: normally, by throwing, or not at all
    (it waits on a promise that never settles). *)
Inductive Completion (A : Type) : Type :=
| Normal (a : A)
| Throw (err : JS.Thrown)
| Hang.

Arguments Normal {A} a.
Arguments Throw {A} err.
Arguments Hang {A}.

(** State changes made before a throw stay made. *)
Definition Async (A : Type) : Type := ViewState -> Completion A * ViewState.

Definition ret {A} (a : A) : Async A := fun st => (Normal a, st).

Definition bind {A B} (c : Async A) (k : A -> Async B) : Async B :=
  fun st =>
    match c st with
    | (Normal a, st') => k a st'
    | (Throw err, st') => (Throw err, st')
    | (Hang, st') => (Hang, st')
    end.

Definition throw {A} (err : JS.Thrown) : Async A := fun st => (Throw err, st).

(** [await p], for a cycle that runs in one piece: when the promise has
    settled the state is as the cycle left it. What other cycles write
    while this one is suspended is the matter of [Overlap] below. *)
Definition await {A} (p : Settled A) : Async A :=
  fun st =>
    match p with
    | Fulfilled a => (Normal a, st)
    | Rejected reason => (Throw reason, st)
    | Pending => (Hang, st)
    end.

Declare Scope async_scope.
Delimit Scope async_scope with async.
Bind Scope async_scope with Async.

Notation "x <- c ;; k" := (bind c (fun x => k))
  (at level 100, c at next level, right associativity) : async_scope.
Notation "c ;; k" := (bind c (fun _ => k))
  (at level 100, right associativity) : async_scope.

(** [try { body } catch (err) { handler } finally { fin }]: the finally
    block runs unless control never comes back; a throw or a hang of its
    own replaces the completion of what came before. *)
Definition try_catch_finally {A} (body : Async A)
    (handler : JS.Thrown -> Async A) (fin : Async unit) : Async A :=
  fun st =>
    let '(c1, st1) := body st in
    let '(c2, st2) :=
      match c1 with
      | Throw err => handler err st1
      | _ => (c1, st1)
      end in
    match c2 with
    | Hang => (Hang, st2)
    | _ =>
      match fin st2 with
      | (Normal _, st3) => (c2, st3)
      | (Throw err, st3) => (Throw err, st3)
      | (Hang, st3) => (Hang, st3)
      end
    end.

(** The state setters. *)
Definition setHealth (v : option HealthData) : Async unit := fun st =>
  (Normal tt,
   {| health := v; info := info st; message := message st;
      loading := loading st; error := error st;
      lastRefresh := lastRefresh st |}).

Definition setInfo (v : option InfoData) : Async unit := fun st =>
  (Normal tt,
   {| health := health st; info := v; message := message st;
      loading := loading st; error := error st;
      lastRefresh := lastRefresh st |}).

Definition setMessage (v : string) : Async unit := fun st =>
  (Normal tt,
   {| health := health st; info := info st; message := v;
      loading := loading st; error := error st;
      lastRefresh := lastRefresh st |}).

Definition setLoading (v : bool) : Async unit := fun st =>
  (Normal tt,
   {| health := health st; info := info st; message := message st;
      loading := v; error := error st;
      lastRefresh := lastRefresh st |}).

Definition setError (v : option string) : Async unit := fun st =>
  (Normal tt,
   {| health := health st; info := info st; message := message st;
      loading := loading st; error := v;
      lastRefresh := lastRefresh st |}).

Definition setLastRefresh (v : Z) : Async unit := fun st =>
  (Normal tt,
   {| health := health st; info := info st; message := message st;
      loading := loading st; error := error st;
      lastRefresh := v |}).

(** *** [fetchData] *)

(** What the world does during one refresh cycle: how
    [Promise.all([fetch(health), fetch(info), fetch(greeting)])] settles
    (it rejects with the reason of the first fetch to reject), and what
    the clock shows when [new Date()] is evaluated. *)
Record Cycle : Type := {
  responses :
    Settled (Response HealthData * Response InfoData * Response string);
  clock : Z
}.

Definition failure_message : string := "Failed to fetch data from backend".

Local Open Scope async_scope.

(** The [try] block. *)
Definition fetchData_try (w : Cycle) : Async unit :=
  all <- await (responses w) ;;
  let '(healthRes, infoRes, messageRes) := all in
  (if negb (ok healthRes) || negb (ok infoRes) || negb (ok messageRes)
   then throw (JS.ErrorObject failure_message)
   else ret tt) ;;
  healthData <- await (body healthRes) ;;
  infoData <- await (body infoRes) ;;
  messageData <- await (body messageRes) ;;
  setHealth (Some healthData) ;;
  setInfo (Some infoData) ;;
  setMessage messageData ;;
  setLastRefresh (clock w).

(** [err instanceof Error ? err.message : 'Unknown error occurred'] *)
Definition shown_error (err : JS.Thrown) : string :=
  match err with
  | JS.ErrorObject message => message
  | JS.NonError _ => "Unknown error occurred"
  end.

(** The [catch] block. *)
Definition fetchData_catch (err : JS.Thrown) : Async unit :=
  setError (Some (shown_error err)).

(** The two statements every cycle starts with. *)
Definition fetchData_begin : Async unit :=
  setLoading true ;;
  setError None.

Definition fetchData (w : Cycle) : Async unit :=
  fetchData_begin ;;
  try_catch_finally (fetchData_try w) fetchData_catch (setLoading false).

Local Close Scope async_scope.

(** The completion and the view state a cycle leaves. *)
Definition completion (w : Cycle) (st : ViewState) : Completion unit :=
  fst (fetchData w st).

Definition refreshed (w : Cycle) (st : ViewState) : ViewState :=
  snd (fetchData w st).

(** The cycle fails: its [try] block ends by throwing. *)
Definition failing (w : Cycle) (st : ViewState) : bool :=
  match fst (fetchData_try w (snd (fetchData_begin st))) with
  | Throw _ => true
  | _ => false
  end.

(** No promise of the cycle stays pending. *)
Definition settled {A} (p : Settled A) : bool :=
  match p with
  | Pending => false
  | _ => true
  end.

Definition all_settle (w : Cycle) : bool :=
  match responses w with
  | Fulfilled (healthRes, infoRes, messageRes) =>
    settled (body healthRes) && settled (body infoRes)
      && settled (body messageRes)
  | Rejected _ => true
  | Pending => false
  end.

(** *** [formatUptime] *)

(** On exact rationals; [Rounded.formatUptime] and [Double.formatUptime]
    below have the rounding of the divisions. *)
Definition formatUptime (seconds : Q) : string :=
  let hours := JS.Math_floor (seconds / 3600)%Q in
  let minutes := JS.Math_floor (JS.rem seconds 3600 / 60)%Q in
  let secs := JS.Math_floor (JS.rem seconds 60) in
  JS.Number_toString hours +:+ "h " +:+
  JS.Number_toString minutes +:+ "m " +:+
  JS.Number_toString secs +:+ "s".

End App.

(* ===================================================================== *)
(** ** Sample refresh cycles *)
(* ===================================================================== *)

Module Samples.

Import Fetch App.

Definition health0 : HealthData :=
  {| status := "ok"; timestamp := "2024-01-01T00:00:00Z"; uptime := 5 |}.

Definition info0 : InfoData :=
  {| name := "X"; version := "1.0.0"; environment := "dev";
     nodeVersion := "v20" |}.

Definition health1 : HealthData :=
  {| status := "ok"; timestamp := "2024-01-01T00:00:30Z"; uptime := 35 |}.

Definition respond {A} (code : Z) (payload : A) : Response A :=
  {| Fetch.status := code; body := Fulfilled payload |}.

(** All three endpoints answer 200 with well-formed bodies. *)
Definition all_fine : Cycle :=
  {| responses :=
       Fulfilled (respond 200 health0, respond 200 info0, respond 200 "hi");
     clock := 1704067200000 |}.

(** The info endpoint answers 500, the other two answer 200. *)
Definition info_500 : Cycle :=
  {| responses :=
       Fulfilled (respond 200 health1, respond 500 info0, respond 200 "hi");
     clock := 1704067230000 |}.

(** The backend is unreachable: [fetch] rejects with a [TypeError]. *)
Definition network_down : Cycle :=
  {| responses := Rejected (JS.ErrorObject "Failed to fetch");
     clock := 1704067230000 |}.

(** The health endpoint answers 200 with a body that is not JSON. *)
Definition malformed_health : Cycle :=
  {| responses :=
       Fulfilled
         ({| Fetch.status := 200;
             body := Rejected (JS.ErrorObject
               "JSON.parse: unexpected character at line 1 column 1 of the JSON data") |},
          respond 200 info0, respond 200 "hi");
     clock := 1704067230000 |}.

(** A request that never settles. *)
Definition hung : Cycle :=
  {| responses := Pending; clock := 1704067230000 |}.

(** The view after a first successful cycle. *)
Definition shown : ViewState :=
  {| health := Some health0; info := Some info0; message := "hi";
     loading := false; error := None; lastRefresh := 1704067200000 |}.

End Samples.

(* ===================================================================== *)
(** ** Orders on timestamps, and sample processes *)
(* ===================================================================== *)

(** The instants whose year has four digits, 0000-01-01T00:00:00.000Z to
    9999-12-31T23:59:59.999Z: there the ISO rendering has a fixed width
    and the order of the strings is the order of the instants. *)
Definition four_digit_years (t : Z) : Prop :=
  -62167219200000 <= t < 253402300800000.

(** A date as one number: months counted from year 0, then the day. *)
Definition month_key (date : Z * Z * Z) : Z :=
  let '(y, m, d) := date in (y * 12 + m) * 32 + d.

(** Comparison of a first component, then of the rest. *)
Definition lexicographic (c rest : comparison) : comparison :=
  match c with
  | Eq => rest
  | _ => c
  end.

(** [f] holds at [i], [i + 1], ..., [n] values in all. *)
Fixpoint all_from (f : Z -> bool) (i : Z) (n : nat) : bool :=
  match n with
  | O => true
  | S k => f i && all_from f (i + 1) k
  end.

(** [JS.pad width] has its width at [n] and at [n + 1], and its value at
    [n] is below its value at [n + 1]. *)
Definition pad_step (width : nat) (n : Z) : bool :=
  Nat.eqb (String.length (JS.pad width n)) width &&
  Nat.eqb (String.length (JS.pad width (n + 1))) width &&
  match String.compare (JS.pad width n) (JS.pad width (n + 1)) with
  | Lt => true
  | _ => false
  end.

(** Two rendered timestamps in chronological order: they are the ISO
    renderings of two instants, the first not after the second. *)
Definition chronological (s1 s2 : string) : Prop :=
  exists t1 t2 : Z,
    s1 = JS.Date_toISOString t1 /\ s2 = JS.Date_toISOString t2 /\ t1 <= t2.

(** A process five and a half seconds after start, [NODE_ENV] set to the
    empty string. *)
Definition sample_process : Process.t :=
  {| Process.now := 1704067200000;
     Process.uptime := 5.5%Q;
     Process.env := <["NODE_ENV" := EmptyString]> ∅;
     Process.version := "v20.11.0" |}.

(** The same process a quarter of an hour later. *)
Definition sample_process_later : Process.t :=
  {| Process.now := 1704068100000;
     Process.uptime := 905.5%Q;
     Process.env := <["NODE_ENV" := EmptyString]> ∅;
     Process.version := "v20.11.0" |}.

(* ===================================================================== *)
(** ** What the component renders *)
(* ===================================================================== *)

Module View.

Import Fetch App.

(** [import.meta.env.VITE_API_URL || 'http://localhost:3000'] *)
Definition API_URL (VITE_API_URL : option string) : string :=
  JS.or_else VITE_API_URL "http://localhost:3000".

(** The three addresses a cycle requests, in the order of the array given
    to [Promise.all]. *)
Definition requested (VITE_API_URL : option string) : list string :=
  [API_URL VITE_API_URL +:+ "/api/health";
   API_URL VITE_API_URL +:+ "/api/info";
   API_URL VITE_API_URL +:+ "/api"].

(** [health?.status === 'ok'] *)
Definition isConnected (st : ViewState) : bool :=
  match health st with
  | Some h => String.eqb (status h) "ok"
  | None => false
  end.

(** The health card: the spinner, or the status badge followed, when there
    is a health snapshot, by the uptime and the time of the last check. *)
Inductive HealthCard : Type :=
| HealthChecking
| HealthStatus (badge : string) (details : option (string * string)).

(** The info card: the spinner, the four values, or "No data available". *)
Inductive InfoCard : Type :=
| InfoSpinner
| InfoList (nameText versionText environmentText nodeText : string)
| InfoEmpty.

(** The message card: the spinner, the message with the time of the last
    refresh, or "No message received". *)
Inductive MessageCard : Type :=
| MessageSpinner
| MessageContent (text lastUpdated : string)
| MessageEmpty.

(** The parts of the rendered page that depend on the state. *)
Record Screen : Type := {
  banner : option string;
  healthCard : HealthCard;
  infoCard : InfoCard;
  messageCard : MessageCard;
  refreshDisabled : bool;
  refreshLabel : string
}.

Section Render.

(** The locale-dependent clock texts of the runtime:
    [new Date(timestamp).toLocaleTimeString()] and
    [date.toLocaleTimeString()]. *)
Variable timestampText : string -> string.
Variable instantText : Z -> string.

(** [{error && (<div className="error-message">⚠️ {error}</div>)}]:
    nothing for [null] and for the empty string. *)
Definition render_banner (st : ViewState) : option string :=
  match error st with
  | Some (String c s) => Some ("⚠️ " +:+ String c s)
  | _ => None
  end.

Definition render_health (st : ViewState) : HealthCard :=
  if loading st then HealthChecking
  else
    HealthStatus
      (if isConnected st then "Connected" else "Disconnected")
      (match health st with
       | Some h => Some (formatUptime (uptime h), timestampText (timestamp h))
       | None => None
       end).

Definition render_info (st : ViewState) : InfoCard :=
  if loading st then InfoSpinner
  else
    match info st with
    | Some i =>
      InfoList (name i) ("v" +:+ version i) (environment i) (nodeVersion i)
    | None => InfoEmpty
    end.

Definition render_message (st : ViewState) : MessageCard :=
  if loading st then MessageSpinner
  else
    match message st with
    | String c s =>
      MessageContent (String c s)
        ("Last updated: " +:+ instantText (lastRefresh st))
    | EmptyString => MessageEmpty
    end.

Definition render (st : ViewState) : Screen :=
  {| banner := render_banner st;
     healthCard := render_health st;
     infoCard := render_info st;
     messageCard := render_message st;
     refreshDisabled := loading st;
     refreshLabel := if loading st then "Refreshing..." else "🔄 Refresh Data" |}.

End Render.

End View.

(* ===================================================================== *)
(** ** Successive refresh cycles *)
(* ===================================================================== *)

Module Session.

Import Fetch App.

(** The cycles of a session one after the other (the one started on
    mount, then those of the timer and of the refresh button), each run
    from the state the one before left. *)
Definition run (ws : list Cycle) (st : ViewState) : ViewState :=
  fold_left (fun s w => refreshed w s) ws st.

(** The four cells that hold fetched data. *)
Definition data (st : ViewState)
    : option HealthData * option InfoData * string * Z :=
  (health st, info st, message st, lastRefresh st).

(** What a cycle stores when it succeeds: three success statuses and
    three bodies that were read. *)
Definition fetched (w : Cycle)
    : option (option HealthData * option InfoData * string * Z) :=
  match responses w with
  | Fulfilled (healthRes, infoRes, messageRes) =>
    if ok healthRes && ok infoRes && ok messageRes then
      match body healthRes, body infoRes, body messageRes with
      | Fulfilled h, Fulfilled i, Fulfilled m =>
        Some (Some h, Some i, m, clock w)
      | _, _, _ => None
      end
    else None
  | _ => None
  end.

(** The data of the last cycle of the list that succeeded, [start] when
    none did. *)
Definition last_fetched (ws : list Cycle)
    (start : option HealthData * option InfoData * string * Z)
    : option HealthData * option InfoData * string * Z :=
  fold_left (fun d w => match fetched w with Some d' => d' | None => d end)
    ws start.

End Session.

(* ===================================================================== *)
(** ** The dashboard in front of the backend *)
(* ===================================================================== *)

(** The JSON bodies of the backend's answers as the dashboard parses them:
    the same fields with the same values. *)
Module Wire.

Definition health (h : AppService.Health) : App.HealthData :=
  {| App.status := AppService.status h;
     App.timestamp := AppService.timestamp h;
     App.uptime := AppService.uptime h |}.

Definition info (i : AppService.Info) : App.InfoData :=
  {| App.name := AppService.name i;
     App.version := AppService.version i;
     App.environment := AppService.environment i;
     App.nodeVersion := AppService.nodeVersion i |}.

(** A cycle whose three requests are answered by the controller, with
    status 200: the health request when the process is in state [ph], the
    info request when it is in state [pi]. *)
Definition served (ph pi : Process.t) (clock : Z) : App.Cycle :=
  {| App.responses :=
       Fetch.Fulfilled
         ({| Fetch.status := 200;
             Fetch.body := Fetch.Fulfilled (health (AppController.getHealth ph)) |},
          {| Fetch.status := 200;
             Fetch.body := Fetch.Fulfilled (info (AppController.getInfo pi)) |},
          {| Fetch.status := 200;
             Fetch.body := Fetch.Fulfilled AppController.getHello |});
     App.clock := clock |}.

End Wire.

(** Further sample cycles. *)
Module MoreSamples.

Import Fetch App.

(** The info endpoint answers 500 and no body ever arrives. *)
Definition info_500_no_body : Cycle :=
  {| responses :=
       Fulfilled ({| Fetch.status := 200; body := Pending |},
                  {| Fetch.status := 500; body := Pending |},
                  {| Fetch.status := 200; body := Pending |});
     clock := 1704067230000 |}.

(** A request rejected with an [Error] whose message is empty. *)
Definition silent_failure : Cycle :=
  {| responses := Rejected (JS.ErrorObject EmptyString);
     clock := 1704067230000 |}.


End MoreSamples.

(** [process.env[k] = v] and [delete process.env[k]]. *)
Definition setenv (k v : string) (p : Process.t) : Process.t :=
  {| Process.now := Process.now p;
     Process.uptime := Process.uptime p;
     Process.env := <[k := v]> (Process.env p);
     Process.version := Process.version p |}.

Definition unsetenv (k : string) (p : Process.t) : Process.t :=
  {| Process.now := Process.now p;
     Process.uptime := Process.uptime p;
     Process.env := delete k (Process.env p);
     Process.version := Process.version p |}.

(** The three numbers [formatUptime] computes, and the text it builds
    from them. *)
Definition uptime_fields (seconds : Q) : Z * Z * Z :=
  (JS.Math_floor (seconds / 3600)%Q,
   JS.Math_floor (JS.rem seconds 3600 / 60)%Q,
   JS.Math_floor (JS.rem seconds 60)).

Definition uptime_text (fields : Z * Z * Z) : string :=
  let '(hours, minutes, secs) := fields in
  JS.Number_toString hours +:+ "h " +:+
  JS.Number_toString minutes +:+ "m " +:+
  JS.Number_toString secs +:+ "s".

(** Order of three numbers, the first deciding before the second before
    the third. *)
Definition fields_le (a b : Z * Z * Z) : Prop :=
  let '(h1, m1, s1) := a in
  let '(h2, m2, s2) := b in
  h1 < h2 \/ (h1 = h2 /\ (m1 < m2 \/ (m1 = m2 /\ s1 <= s2))).

(** The characters of a string. *)
Fixpoint chars (s : string) : list Ascii.ascii :=
  match s with
  | EmptyString => []
  | String c r => c :: chars r
  end.

(* ===================================================================== *)
(** ** Cycles that overlap *)
(* ===================================================================== *)

(** [fetchData] is an [async] function: it runs up to its next [await],
    gives the thread back, and goes on, in one piece again, when the
    awaited promise has settled. [App.fetchData] describes a cycle that is
    left alone from its first statement to its last. Between two steps of
    one cycle, though, the steps of other cycles can run and write the
    same state: the timer starts a cycle every 30 seconds, whether or not
    the one before has ended. Here the cycles are run step by step. *)
Module Overlap.

Import Fetch App.

Local Open Scope async_scope.

(** The [await] a started cycle is suspended at: [Promise.all], the two
    [json()] and the [text()]; or that the cycle is over. *)
Inductive Point : Type :=
| AtPromiseAll
| AtHealthJson
| AtInfoJson
| AtMessageText
| Over.

Record Task : Type := {
  cycle : Cycle;
  point : Point
}.

(** The step that ends a cycle by a throw: the [catch] block, then the
    [finally] block. *)
Definition fails (err : JS.Thrown) (st : ViewState) : ViewState :=
  snd ((fetchData_catch err ;; setLoading false) st).

(** The step that ends a cycle normally: the four setters that follow the
    last body read, then the [finally] block. *)
Definition stores (w : Cycle) (healthData : HealthData)
    (infoData : InfoData) (messageData : string) (st : ViewState)
    : ViewState :=
  snd ((setHealth (Some healthData) ;;
        setInfo (Some infoData) ;;
        setMessage messageData ;;
        setLastRefresh (clock w) ;;
        setLoading false) st).

(** The step a suspended cycle takes when the promise it awaits has
    settled: where it stops next, and the state it leaves. There is no
    step while the promise is pending, nor once the cycle is over. *)
Definition resume (t : Task) (st : ViewState) : option (Point * ViewState) :=
  match responses (cycle t) with
  | Pending => None
  | Rejected reason =>
    match point t with
    | AtPromiseAll => Some (Over, fails reason st)
    | _ => None
    end
  | Fulfilled (healthRes, infoRes, messageRes) =>
    match point t with
    | AtPromiseAll =>
      if negb (ok healthRes) || negb (ok infoRes) || negb (ok messageRes)
      then Some (Over, fails (JS.ErrorObject failure_message) st)
      else Some (AtHealthJson, st)
    | AtHealthJson =>
      match body healthRes with
      | Fulfilled _ => Some (AtInfoJson, st)
      | Rejected reason => Some (Over, fails reason st)
      | Pending => None
      end
    | AtInfoJson =>
      match body infoRes with
      | Fulfilled _ => Some (AtMessageText, st)
      | Rejected reason => Some (Over, fails reason st)
      | Pending => None
      end
    | AtMessageText =>
      match body healthRes, body infoRes, body messageRes with
      | Fulfilled healthData, Fulfilled infoData, Fulfilled messageData =>
        Some (Over, stores (cycle t) healthData infoData messageData st)
      | Fulfilled _, Fulfilled _, Rejected reason =>
        Some (Over, fails reason st)
      | _, _, _ => None
      end
    | Over => None
    end
  end.

Local Close Scope async_scope.

(** The component at some moment: the state, and the cycles started so
    far, in the order they were started. *)
Record System : Type := {
  view : ViewState;
  tasks : list Task
}.

(** What happens next: a cycle is started (by the mount, the timer or the
    button) and runs its first two statements, or the [n]-th started
    cycle takes its next step. *)
Inductive Event : Type :=
| Start (w : Cycle)
| Resume (n : nat).

Definition step (ev : Event) (sys : System) : option System :=
  match ev with
  | Start w =>
    Some {| view := snd (fetchData_begin (view sys));
            tasks := tasks sys ++ [{| cycle := w; point := AtPromiseAll |}] |}
  | Resume n =>
    match tasks sys !! n with
    | Some t =>
      match resume t (view sys) with
      | Some (next, st) =>
        Some {| view := st;
                tasks := <[n := {| cycle := cycle t; point := next |}]>
                           (tasks sys) |}
      | None => None
      end
    | None => None
    end
  end.

Fixpoint exec (evs : list Event) (sys : System) : option System :=
  match evs with
  | [] => Some sys
  | ev :: rest =>
    match step ev sys with
    | Some sys' => exec rest sys'
    | None => None
    end
  end.

(** The component as mounted, no cycle started yet. *)
Definition boot (mounted : Z) : System :=
  {| view := initial mounted; tasks := [] |}.

(** A started cycle taken through its steps with nothing in between,
    until it is over or awaits a promise that never settles. *)
Fixpoint finish (steps : nat) (t : Task) (st : ViewState)
    : Point * ViewState :=
  match steps with
  | O => (point t, st)
  | S k =>
    match resume t st with
    | Some (next, st') => finish k {| cycle := cycle t; point := next |} st'
    | None => (point t, st)
    end
  end.

Definition alone (w : Cycle) (st : ViewState) : Point * ViewState :=
  finish 4 {| cycle := w; point := AtPromiseAll |} (snd (fetchData_begin st)).

(** All three responses have a success status and all three bodies are
    read. *)
Definition succeeds (w : Cycle) : bool :=
  match responses w with
  | Fulfilled (healthRes, infoRes, messageRes) =>
    ok healthRes && ok infoRes && ok messageRes &&
    match body healthRes, body infoRes, body messageRes with
    | Fulfilled _, Fulfilled _, Fulfilled _ => true
    | _, _, _ => false
    end
  | _ => false
  end.

(** A cycle started on mount whose request is rejected only after the
    timer has started the next cycle, which is answered well. *)
Definition late_failure : list Event :=
  [Start Samples.network_down; Start Samples.all_fine;
   Resume 0; Resume 1; Resume 1; Resume 1; Resume 1].

End Overlap.

(* ===================================================================== *)
(** ** Numbers as binary64 values *)
(* ===================================================================== *)

(** [App.formatUptime] computes with exact rationals. The numbers of the
    program are binary64 values: [Math.floor] and [%] are exact on them,
    division rounds its result to the nearest binary64 value. The uptime
    text with a division that rounds, whatever the rounding [rnd]. *)
Module Rounded.

Section Division.

Variable rnd : Q -> Q.

(** [x / y] *)
Definition div (x y : Q) : Q := rnd (x / y).

Definition uptime_fields (seconds : Q) : Z * Z * Z :=
  (JS.Math_floor (div seconds 3600),
   JS.Math_floor (div (JS.rem seconds 3600) 60),
   JS.Math_floor (JS.rem seconds 60)).

Definition formatUptime (seconds : Q) : string :=
  let hours := JS.Math_floor (div seconds 3600) in
  let minutes := JS.Math_floor (div (JS.rem seconds 3600) 60) in
  let secs := JS.Math_floor (JS.rem seconds 60) in
  JS.Number_toString hours +:+ "h " +:+
  JS.Number_toString minutes +:+ "m " +:+
  JS.Number_toString secs +:+ "s".

End Division.

(** What is used of the rounding to nearest of binary64: from zero on it
    keeps the order, it leaves the integers up to 2^53 and one half as they
    are, and from one half up to 2^53 it errs by at most one part in
    2^53. *)
Record binary64 (rnd : Q -> Q) : Prop := {
  rnd_monotone :
    forall x y : Q, (0 <= x)%Q -> (x <= y)%Q -> (rnd x <= rnd y)%Q;
  rnd_integer :
    forall z : Z, 0 <= z <= 9007199254740992 ->
                  (rnd (inject_Z z) == inject_Z z)%Q;
  rnd_half : (rnd (1 # 2) == 1 # 2)%Q;
  rnd_accurate :
    forall x : Q, (1 # 2 <= x)%Q -> (x <= 9007199254740992)%Q ->
                  (rnd x <= x + x * (1 # 9007199254740992))%Q
}.

(** Rounding to the nearest binary64 value, ties to the even mantissa:
    53 bits from the leading one, and no bit below 2^-1074. (No overflow:
    the quotients of [formatUptime] are smaller than the uptime.) *)

(** For [x > 0], the [L] with [2^L <= x < 2^(L+1)]. *)
Definition magnitude (x : Q) : Z :=
  let L := Z.log2 (Qnum x) - Z.log2 (Zpos (Qden x)) in
  if Qle_bool (2 ^ L) x then L else L - 1.

(** The exponent of the last bit kept. *)
Definition exponent (x : Q) : Z := Z.max (-1074) (magnitude x - 52).

Definition round_half_even (q : Q) : Z :=
  let f := Qfloor q in
  match Qcompare (q - inject_Z f) (1 # 2) with
  | Lt => f
  | Eq => if Z.even f then f else f + 1
  | Gt => f + 1
  end.

Definition nearest_positive (x : Q) : Q :=
  (inject_Z (round_half_even (x / 2 ^ exponent x)) * 2 ^ exponent x)%Q.

Definition nearest (x : Q) : Q :=
  match Qnum x with
  | Z0 => 0%Q
  | Zpos _ => nearest_positive x
  | Zneg _ => (- nearest_positive (- x))%Q
  end.

(** The binary64 values from 0 up to 2^57, 2^57 left out: a whole number
    below 2^53 times a power of two, the exponent 4 at most. *)
Definition below_2_57 (s : Q) : Prop :=
  exists m e : Z,
    0 <= m < 9007199254740992 /\ e <= 4 /\ (s == inject_Z m * 2 ^ e)%Q.

End Rounded.

(** The same computation on binary64 values themselves, sign, mantissa and
    exponent, with the division of IEEE 754. *)
Module Double.

Definition prec : Z := 53.
Definition emax : Z := 1024.

(** The binary64 value nearest to a whole number. *)
Definition of_Z (z : Z) : spec_float := binary_normalize prec emax z 0 false.

(** [x / y], rounded to nearest, ties to even. *)
Definition div (x y : spec_float) : spec_float := SFdiv prec emax x y.

(** The whole part of a finite value, rounded down. *)
Definition whole (x : spec_float) : Z :=
  match x with
  | S754_finite s m e =>
    let v := if s then Zneg m else Zpos m in
    if 0 <=? e then v * 2 ^ e else v / 2 ^ (- e)
  | _ => 0
  end.

(** [Math.floor]: exact; zeros, infinities and NaN are left as they are. *)
Definition Math_floor (x : spec_float) : spec_float :=
  match x with
  | S754_finite s m e =>
    match whole x with
    | Z0 => S754_zero s
    | z => binary_normalize prec emax z 0 false
    end
  | _ => x
  end.

(** [x % y]: exact, with the sign of the dividend. *)
Definition rem (x y : spec_float) : spec_float :=
  match x, y with
  | S754_nan, _ | _, S754_nan => S754_nan
  | S754_infinity _, _ => S754_nan
  | _, S754_zero _ => S754_nan
  | S754_zero _, _ => x
  | S754_finite _ _ _, S754_infinity _ => x
  | S754_finite sx mx ex, S754_finite _ my ey =>
    let e := Z.min ex ey in
    match (Zpos mx * 2 ^ (ex - e)) mod (Zpos my * 2 ^ (ey - e)) with
    | Z0 => S754_zero sx
    | r => binary_normalize prec emax (if sx then - r else r) e false
    end
  end.

(** The whole number a value is, if it is one. *)
Definition integer (x : spec_float) : option Z :=
  match x with
  | S754_zero _ => Some 0
  | S754_finite s m e =>
    let v := if s then Zneg m else Zpos m in
    if 0 <=? e then Some (v * 2 ^ e)
    else if v mod 2 ^ (- e) =? 0 then Some (v / 2 ^ (- e)) else None
  | _ => None
  end.

(** The hours, minutes and seconds of [formatUptime]. *)
Definition uptime_fields (seconds : spec_float)
    : spec_float * spec_float * spec_float :=
  (Math_floor (div seconds (of_Z 3600)),
   Math_floor (div (rem seconds (of_Z 3600)) (of_Z 60)),
   Math_floor (rem seconds (of_Z 60))).

Definition uptime_integers (seconds : spec_float)
    : option Z * option Z * option Z :=
  let '(hours, minutes, secs) := uptime_fields seconds in
  (integer hours, integer minutes, integer secs).

(** [`${x}`] for the values [Math.floor] returns: NaN, the infinities,
    and whole numbers, printed digit by digit below 2^53 ([-0] as "0").
    From 2^53 on JavaScript prints the shortest digits that read back as
    the same value, and from 10^21 on an exponent; those texts are left
    out here. *)
Definition Number_toString (x : spec_float) : option string :=
  match x with
  | S754_nan => Some "NaN"
  | S754_infinity false => Some "Infinity"
  | S754_infinity true => Some "-Infinity"
  | _ =>
    match integer x with
    | Some z =>
      if Z.abs z <? 2 ^ 53 then Some (JS.Number_toString z) else None
    | None => None
    end
  end.

Definition formatUptime (seconds : spec_float) : option string :=
  let '(hours, minutes, secs) := uptime_fields seconds in
  match Number_toString hours, Number_toString minutes,
        Number_toString secs with
  | Some h, Some m, Some s => Some (h +:+ "h " +:+ m +:+ "m " +:+ s +:+ "s")
  | _, _, _ => None
  end.

(** The rational number a finite value is. *)
Definition value (x : spec_float) : option Q :=
  match x with
  | S754_zero _ => Some 0%Q
  | S754_finite s m e =>
    Some (inject_Z (if s then Zneg m else Zpos m) * 2 ^ e)%Q
  | _ => None
  end.

(** [x] is the rational number [q]. *)
Definition equals (x : spec_float) (q : Q) : bool :=
  match value x with
  | Some v => Qeq_bool v q
  | None => false
  end.

(** Zero, or finite and positive. *)
Definition nonnegative (x : spec_float) : bool :=
  match x with
  | S754_zero _ => true
  | S754_finite false _ _ => true
  | _ => false
  end.

End Double.

(* ===================================================================== *)
(** ** The runtime model on known values *)
(* ===================================================================== *)

Example toISOString_epoch :
  JS.Date_toISOString 0 = "1970-01-01T00:00:00.000Z".
Proof. vm_compute. reflexivity. Qed.

Example toISOString_2024 :
  JS.Date_toISOString 1704067200000 = "2024-01-01T00:00:00.000Z".
Proof. vm_compute. reflexivity. Qed.

Example toISOString_leap_day :
  JS.Date_toISOString 951827696789 = "2000-02-29T12:34:56.789Z".
Proof. vm_compute. reflexivity. Qed.

Example toISOString_before_epoch :
  JS.Date_toISOString (-1) = "1969-12-31T23:59:59.999Z".
Proof. vm_compute. reflexivity. Qed.

Example toISOString_year_10000 :
  JS.Date_toISOString 253402300800000 = "+010000-01-01T00:00:00.000Z".
Proof. vm_compute. reflexivity. Qed.

Example toISOString_year_minus_1 :
  JS.Date_toISOString (-62198755200000) = "-000001-01-01T00:00:00.000Z".
Proof. vm_compute. reflexivity. Qed.

Example formatUptime_negative :
  App.formatUptime (-1) = "-1h -1m -1s".
Proof. vm_compute. reflexivity. Qed.

Example formatUptime_fraction :
  App.formatUptime (7322.75)%Q = "2h 2m 2s".
Proof. vm_compute. reflexivity. Qed.

(* ===================================================================== *)
(** ** The order of rendered timestamps *)
(* ===================================================================== *)

Section Calendar.

(** Year of era and day of year, from the day of era. *)
Lemma year_of_era (doe : Z) :
  0 <= doe < 146097 ->
  let yoe := (doe - doe / 1460 + doe / 36524 - doe / 146096) / 365 in
  let doy := doe - (365 * yoe + yoe / 4 - yoe / 100) in
  0 <= yoe <= 399 /\ 0 <= doy <= 365.
Proof. intros H. cbv zeta. Z.div_mod_to_equations. lia. Qed.

Lemma year_of_era_mono (a b : Z) :
  0 <= a < b -> b < 146097 ->
  (a - a / 1460 + a / 36524 - a / 146096) / 365
    <= (b - b / 1460 + b / 36524 - b / 146096) / 365.
Proof. intros H1 H2. Z.div_mod_to_equations. lia. Qed.

(** Month (counted from March) and day of month, from the day of year. *)
Lemma month_of_year (doy : Z) :
  0 <= doy <= 365 ->
  let mp := (5 * doy + 2) / 153 in
  let d := doy - (153 * mp + 2) / 5 + 1 in
  0 <= mp <= 11 /\ 1 <= d <= 31.
Proof. intros H. cbv zeta. Z.div_mod_to_equations. lia. Qed.

Lemma month_of_year_mono (a b : Z) :
  0 <= a < b -> b <= 365 ->
  (5 * a + 2) / 153 * 32 + (a - (153 * ((5 * a + 2) / 153) + 2) / 5 + 1)
  < (5 * b + 2) / 153 * 32 + (b - (153 * ((5 * b + 2) / 153) + 2) / 5 + 1).
Proof. intros H1 H2. Z.div_mod_to_equations. lia. Qed.

(** Moving the start of the year from March to January keeps the count
    of months. *)
Lemma month_key_shifted (era yoe mp d : Z) :
  0 <= mp <= 11 ->
  month_key (yoe + era * 400
               + (if (if mp <? 10 then mp + 3 else mp - 9) <=? 2
                  then 1 else 0),
             if mp <? 10 then mp + 3 else mp - 9, d)
  = (((era * 400 + yoe) * 12 + mp) + 3) * 32 + d.
Proof.
  intros H. unfold month_key.
  destruct (mp <? 10) eqn:E; [apply Z.ltb_lt in E | apply Z.ltb_ge in E].
  - destruct (mp + 3 <=? 2) eqn:E2;
      [apply Z.leb_le in E2 | apply Z.leb_gt in E2]; lia.
  - destruct (mp - 9 <=? 2) eqn:E2;
      [apply Z.leb_le in E2 | apply Z.leb_gt in E2]; lia.
Qed.

Lemma civil_from_days_range (day : Z) :
  1 <= snd (fst (JS.civil_from_days day)) <= 12 /\
  1 <= snd (JS.civil_from_days day) <= 31.
Proof.
  unfold JS.civil_from_days. cbv zeta. cbn [fst snd].
  pose proof (Z.mod_pos_bound (day + 719468) 146097 ltac:(lia)) as B.
  revert B. generalize ((day + 719468) mod 146097). intros doe B.
  pose proof (year_of_era doe B) as [_ D]. revert D.
  generalize (doe - (365 * ((doe - doe / 1460 + doe / 36524 - doe / 146096)
                              / 365)
                     + (doe - doe / 1460 + doe / 36524 - doe / 146096)
                         / 365 / 4
                     - (doe - doe / 1460 + doe / 36524 - doe / 146096)
                         / 365 / 100)).
  intros doy D. pose proof (month_of_year doy D) as [M Dm]. revert M Dm.
  generalize ((5 * doy + 2) / 153). intros mp M Dm. split; [| exact Dm].
  destruct (mp <? 10) eqn:E; [apply Z.ltb_lt in E | apply Z.ltb_ge in E]; lia.
Qed.

(** A later day is a later date. *)
Lemma civil_from_days_lt (day1 day2 : Z) :
  day1 < day2 ->
  month_key (JS.civil_from_days day1) < month_key (JS.civil_from_days day2).
Proof.
  intros Hlt. unfold JS.civil_from_days. cbv zeta.
  assert (Hz : day1 + 719468 < day2 + 719468) by lia.
  revert Hz. generalize (day1 + 719468) (day2 + 719468). clear.
  intros z1 z2 Hz.
  pose proof (Z.div_mod z1 146097 ltac:(lia)) as E1.
  pose proof (Z.div_mod z2 146097 ltac:(lia)) as E2.
  pose proof (Z.mod_pos_bound z1 146097 ltac:(lia)) as B1.
  pose proof (Z.mod_pos_bound z2 146097 ltac:(lia)) as B2.
  revert E1 E2 B1 B2.
  generalize (z1 / 146097) (z1 mod 146097) (z2 / 146097) (z2 mod 146097).
  intros era1 doe1 era2 doe2 E1 E2 B1 B2.
  pose proof (year_of_era doe1 B1) as Y1.
  pose proof (year_of_era doe2 B2) as Y2.
  cbv zeta in Y1, Y2.
  assert (Hy : era1 = era2 ->
     (doe1 - doe1 / 1460 + doe1 / 36524 - doe1 / 146096) / 365
     <= (doe2 - doe2 / 1460 + doe2 / 36524 - doe2 / 146096) / 365).
  { intros ->. apply year_of_era_mono; lia. }
  revert Y1 Y2 Hy.
  generalize ((doe1 - doe1 / 1460 + doe1 / 36524 - doe1 / 146096) / 365).
  generalize ((doe2 - doe2 / 1460 + doe2 / 36524 - doe2 / 146096) / 365).
  intros yoe2 yoe1 [Y1 D1] [Y2 D2] Hy.
  set (doy1 := doe1 - (365 * yoe1 + yoe1 / 4 - yoe1 / 100)) in *.
  set (doy2 := doe2 - (365 * yoe2 + yoe2 / 4 - yoe2 / 100)) in *.
  pose proof (month_of_year doy1 D1) as M1.
  pose proof (month_of_year doy2 D2) as M2.
  cbv zeta in M1, M2.
  assert (Hm : doy1 < doy2 ->
    (5 * doy1 + 2) / 153 * 32
      + (doy1 - (153 * ((5 * doy1 + 2) / 153) + 2) / 5 + 1)
    < (5 * doy2 + 2) / 153 * 32
      + (doy2 - (153 * ((5 * doy2 + 2) / 153) + 2) / 5 + 1)).
  { intros. apply month_of_year_mono; lia. }
  rewrite !month_key_shifted by tauto.
  revert M1 M2 Hm.
  generalize ((5 * doy1 + 2) / 153) ((5 * doy2 + 2) / 153).
  intros mp1 mp2.
  generalize (doy1 - (153 * mp1 + 2) / 5 + 1) (doy2 - (153 * mp2 + 2) / 5 + 1).
  intros d1 d2 M1 M2 Hm.
  assert (era1 <= era2) by nia.
  destruct (Z.eq_dec era1 era2) as [Heq | Hne].
  - specialize (Hy Heq). subst era2.
    assert (doe1 < doe2) by lia.
    destruct (Z.eq_dec yoe1 yoe2) as [Hyeq | Hyne].
    + subst yoe2. assert (doy1 < doy2) by (subst doy1 doy2; lia).
      specialize (Hm ltac:(assumption)). lia.
    + lia.
  - lia.
Qed.

(** The days of the four-digit years have a year from 0 to 9999. *)
Lemma civil_from_days_year (day : Z) :
  -719528 <= day <= 2932896 ->
  0 <= fst (fst (JS.civil_from_days day)) <= 9999.
Proof.
  intros [Hlo Hhi].
  pose proof (civil_from_days_range day) as [Hm Hd].
  assert (month_key (JS.civil_from_days (-719528))
          <= month_key (JS.civil_from_days day)) as Klo.
  { destruct (Z.eq_dec day (-719528)) as [-> | Hne]; [lia |].
    apply Z.lt_le_incl, civil_from_days_lt. lia. }
  assert (month_key (JS.civil_from_days day)
          <= month_key (JS.civil_from_days 2932896)) as Khi.
  { destruct (Z.eq_dec day 2932896) as [-> | Hne]; [lia |].
    apply Z.lt_le_incl, civil_from_days_lt. lia. }
  change (month_key (JS.civil_from_days (-719528))) with 33 in Klo.
  change (month_key (JS.civil_from_days 2932896)) with 3840031 in Khi.
  destruct (JS.civil_from_days day) as [[y m] d].
  unfold month_key in Klo, Khi. cbn [fst snd] in *. lia.
Qed.

(** Hours, minutes, seconds and milliseconds of a time of day. *)
Lemma time_of_day (ms : Z) :
  0 <= ms < JS.msPerDay ->
  0 <= ms / 3600000 <= 23 /\ 0 <= ms / 60000 mod 60 <= 59 /\
  0 <= ms / 1000 mod 60 <= 59 /\ 0 <= ms mod 1000 <= 999 /\
  ms = ((ms / 3600000 * 60 + ms / 60000 mod 60) * 60 + ms / 1000 mod 60)
         * 1000 + ms mod 1000.
Proof. unfold JS.msPerDay. intros H. Z.div_mod_to_equations. lia. Qed.

End Calendar.

Section StringOrder.

Lemma all_from_spec (f : Z -> bool) (n : nat) (i : Z) :
  all_from f i n = true ->
  forall j : Z, i <= j < i + Z.of_nat n -> f j = true.
Proof.
  revert i. induction n as [| k IH]; intros i Hall j Hj.
  - simpl in Hj. lia.
  - simpl in Hall. apply andb_true_iff in Hall as [Hi Hrest].
    destruct (Z.eq_dec j i) as [-> | Hne]; [exact Hi |].
    apply (IH (i + 1) Hrest). lia.
Qed.

Lemma compare_refl (s : string) : String.compare s s = Eq.
Proof.
  pose proof (String.compare_antisym s s) as H.
  destruct (String.compare s s); simpl in H; congruence.
Qed.

Lemma compare_trans (a b c : string) :
  String.compare a b = Lt -> String.compare b c = Lt ->
  String.compare a c = Lt.
Proof.
  intros H1 H2. apply String_as_OT.cmp_lt.
  apply String_as_OT.lt_trans with b; apply String_as_OT.cmp_lt; assumption.
Qed.

(** Two strings that start with prefixes of the same length compare by
    the prefixes first. *)
Lemma compare_app (a1 a2 b1 b2 : string) :
  String.length a1 = String.length a2 ->
  String.compare (a1 +:+ b1) (a2 +:+ b2)
  = lexicographic (String.compare a1 a2) (String.compare b1 b2).
Proof.
  revert a2. induction a1 as [| c1 a1 IH]; intros [| c2 a2] Hlen;
    try discriminate; simpl.
  - reflexivity.
  - injection Hlen as Hlen. rewrite (IH a2 Hlen).
    destruct (Ascii.compare c1 c2); reflexivity.
Qed.

Lemma compare_separator (sep r1 r2 : string) :
  String.compare (sep +:+ r1) (sep +:+ r2) = String.compare r1 r2.
Proof.
  rewrite compare_app by reflexivity. rewrite compare_refl. reflexivity.
Qed.

(** A function that grows at every step grows over the whole range. *)
Lemma increasing_by_steps (f : Z -> string) (N : Z) :
  (forall n, 0 <= n -> n + 1 < N -> String.compare (f n) (f (n + 1)) = Lt) ->
  forall a b, 0 <= a < b -> b < N -> String.compare (f a) (f b) = Lt.
Proof.
  intros Hstep a b Hab HbN.
  assert (forall k : nat, a + 1 + Z.of_nat k < N ->
            String.compare (f a) (f (a + 1 + Z.of_nat k)) = Lt) as Hk.
  { induction k as [| k IH]; intros Hk.
    - rewrite Z.add_0_r. apply Hstep; lia.
    - apply compare_trans with (f (a + 1 + Z.of_nat k)).
      + apply IH. lia.
      + replace (a + 1 + Z.of_nat (S k)) with (a + 1 + Z.of_nat k + 1) by lia.
        apply Hstep; lia. }
  replace b with (a + 1 + Z.of_nat (Z.to_nat (b - a - 1))) by lia.
  apply Hk. lia.
Qed.

Lemma compare_by_steps (f : Z -> string) (N : Z) :
  (forall n, 0 <= n -> n + 1 < N -> String.compare (f n) (f (n + 1)) = Lt) ->
  forall a b, 0 <= a < N -> 0 <= b < N ->
    String.compare (f a) (f b) = (a ?= b).
Proof.
  intros Hstep a b Ha Hb. destruct (Z.compare_spec a b) as [-> | Hlt | Hgt].
  - apply compare_refl.
  - apply (increasing_by_steps f N Hstep); lia.
  - rewrite String.compare_antisym.
    rewrite (increasing_by_steps f N Hstep b a); [reflexivity | lia | lia].
Qed.

(** The padded decimals of a given width, checked value by value. *)
Lemma pad2_checked : all_from (pad_step 2) 0 99 = true.
Proof. vm_compute. reflexivity. Qed.

Lemma pad3_checked : all_from (pad_step 3) 0 999 = true.
Proof. vm_compute. reflexivity. Qed.

Lemma pad4_checked : all_from (pad_step 4) 0 (Z.to_nat 9999) = true.
Proof. vm_compute. reflexivity. Qed.

Lemma pad_step_spec (width : nat) (n : Z) :
  pad_step width n = true ->
  String.length (JS.pad width n) = width /\
  String.length (JS.pad width (n + 1)) = width /\
  String.compare (JS.pad width n) (JS.pad width (n + 1)) = Lt.
Proof.
  unfold pad_step. rewrite !andb_true_iff, !Nat.eqb_eq.
  intros [[H1 H2] H3]. repeat split; try assumption.
  destruct (String.compare (JS.pad width n) (JS.pad width (n + 1)));
    congruence.
Qed.

(** On a checked range, padding gives strings of the given width, ordered
    as the numbers are. *)
Lemma pad_field (width count : nat) :
  (0 < count)%nat ->
  all_from (pad_step width) 0 count = true ->
  forall a b, 0 <= a <= Z.of_nat count -> 0 <= b <= Z.of_nat count ->
    String.length (JS.pad width a) = width /\
    String.compare (JS.pad width a) (JS.pad width b) = (a ?= b).
Proof.
  intros Hpos Hall a b Ha Hb.
  pose proof (all_from_spec _ _ _ Hall) as Hstep. split.
  - destruct (Z.eq_dec a (Z.of_nat count)) as [-> | Hne].
    + destruct (pad_step_spec width (Z.of_nat count - 1)
                  (Hstep (Z.of_nat count - 1) ltac:(lia))) as [_ [Hlen _]].
      replace (Z.of_nat count - 1 + 1) with (Z.of_nat count) in Hlen by lia.
      exact Hlen.
    + destruct (pad_step_spec width a (Hstep a ltac:(lia))) as [Hlen _].
      exact Hlen.
  - apply (compare_by_steps (JS.pad width) (Z.of_nat count + 1)); try lia.
    intros n Hn HnN.
    destruct (pad_step_spec width n (Hstep n ltac:(lia))) as [_ [_ Hcmp]].
    exact Hcmp.
Qed.

Lemma pad2_field (a b : Z) :
  0 <= a <= 99 -> 0 <= b <= 99 ->
  String.length (JS.pad 2 a) = String.length (JS.pad 2 b) /\
  String.compare (JS.pad 2 a) (JS.pad 2 b) = (a ?= b).
Proof.
  intros Ha Hb.
  destruct (pad_field 2 99 ltac:(lia) pad2_checked a b) as [La C]; try lia.
  destruct (pad_field 2 99 ltac:(lia) pad2_checked b a) as [Lb _]; try lia.
  split; [congruence | exact C].
Qed.

Lemma pad3_field (a b : Z) :
  0 <= a <= 999 -> 0 <= b <= 999 ->
  String.length (JS.pad 3 a) = String.length (JS.pad 3 b) /\
  String.compare (JS.pad 3 a) (JS.pad 3 b) = (a ?= b).
Proof.
  intros Ha Hb.
  destruct (pad_field 3 999 ltac:(lia) pad3_checked a b) as [La C]; try lia.
  destruct (pad_field 3 999 ltac:(lia) pad3_checked b a) as [Lb _]; try lia.
  split; [congruence | exact C].
Qed.

Lemma year_field (a b : Z) :
  0 <= a <= 9999 -> 0 <= b <= 9999 ->
  String.length (JS.year_string a) = String.length (JS.year_string b) /\
  String.compare (JS.year_string a) (JS.year_string b) = (a ?= b).
Proof.
  intros Ha Hb. unfold JS.year_string.
  replace ((0 <=? a) && (a <=? 9999)) with true
    by (symmetry; apply andb_true_iff; split; apply Z.leb_le; lia).
  replace ((0 <=? b) && (b <=? 9999)) with true
    by (symmetry; apply andb_true_iff; split; apply Z.leb_le; lia).
  assert (Z.of_nat (Z.to_nat 9999) = 9999) as E by lia.
  destruct (pad_field 4 (Z.to_nat 9999) ltac:(lia) pad4_checked a b)
    as [La C]; try lia.
  destruct (pad_field 4 (Z.to_nat 9999) ltac:(lia) pad4_checked b a)
    as [Lb _]; try lia.
  split; [congruence | exact C].
Qed.

End StringOrder.

Section TimestampOrder.

(** The rendering, with the date of the day given. *)
Lemma toISOString_fields (t y m d : Z) :
  JS.civil_from_days (t / JS.msPerDay) = (y, m, d) ->
  JS.Date_toISOString t =
  JS.year_string y +:+ "-" +:+ JS.pad 2 m +:+ "-" +:+ JS.pad 2 d
    +:+ "T" +:+ JS.pad 2 (t mod JS.msPerDay / 3600000)
    +:+ ":" +:+ JS.pad 2 (t mod JS.msPerDay / 60000 mod 60)
    +:+ ":" +:+ JS.pad 2 (t mod JS.msPerDay / 1000 mod 60)
    +:+ "." +:+ JS.pad 3 (t mod JS.msPerDay mod 1000) +:+ "Z".
Proof. intros E. unfold JS.Date_toISOString. rewrite E. reflexivity. Qed.

Lemma four_digit_years_day (t : Z) :
  four_digit_years t ->
  -719528 <= t / JS.msPerDay <= 2932896 /\
  0 <= t mod JS.msPerDay < JS.msPerDay /\
  t = JS.msPerDay * (t / JS.msPerDay) + t mod JS.msPerDay.
Proof.
  unfold four_digit_years, JS.msPerDay. intros H.
  Z.div_mod_to_equations. lia.
Qed.

(** Within the four-digit years, a later instant renders to a string that
    is later in the order of strings. *)
Lemma toISOString_increasing (t1 t2 : Z) :
  four_digit_years t1 -> four_digit_years t2 -> t1 < t2 ->
  String.compare (JS.Date_toISOString t1) (JS.Date_toISOString t2) = Lt.
Proof.
  intros R1 R2 Hlt.
  destruct (four_digit_years_day t1 R1) as [Hd1 [Hms1 Ht1]].
  destruct (four_digit_years_day t2 R2) as [Hd2 [Hms2 Ht2]].
  pose proof (civil_from_days_range (t1 / JS.msPerDay)) as [Hm1 Hdd1].
  pose proof (civil_from_days_range (t2 / JS.msPerDay)) as [Hm2 Hdd2].
  pose proof (civil_from_days_year _ Hd1) as Hy1.
  pose proof (civil_from_days_year _ Hd2) as Hy2.
  assert (t1 / JS.msPerDay < t2 / JS.msPerDay ->
          month_key (JS.civil_from_days (t1 / JS.msPerDay))
          < month_key (JS.civil_from_days (t2 / JS.msPerDay))) as Hkey
    by apply civil_from_days_lt.
  assert (t1 / JS.msPerDay = t2 / JS.msPerDay ->
          JS.civil_from_days (t1 / JS.msPerDay)
          = JS.civil_from_days (t2 / JS.msPerDay)) as Hsame
    by (intros ->; reflexivity).
  destruct (JS.civil_from_days (t1 / JS.msPerDay)) as [[y1 m1] d1] eqn:E1.
  destruct (JS.civil_from_days (t2 / JS.msPerDay)) as [[y2 m2] d2] eqn:E2.
  rewrite (toISOString_fields t1 y1 m1 d1 E1).
  rewrite (toISOString_fields t2 y2 m2 d2 E2).
  cbn [fst snd] in *. unfold month_key in Hkey.
  revert Hd1 Hd2 Hms1 Hms2 Ht1 Ht2 Hkey Hsame. clear E1 E2.
  generalize (t1 / JS.msPerDay) (t2 / JS.msPerDay).
  generalize (t1 mod JS.msPerDay) (t2 mod JS.msPerDay).
  intros ms1 ms2 day1 day2 Hd1 Hd2 Hms1 Hms2 Ht1 Ht2 Hkey Hsame.
  destruct (time_of_day ms1 Hms1) as [Hh1 [Hmi1 [Hs1 [Hf1 Hsum1]]]].
  destruct (time_of_day ms2 Hms2) as [Hh2 [Hmi2 [Hs2 [Hf2 Hsum2]]]].
  revert Hh1 Hmi1 Hs1 Hf1 Hsum1 Hh2 Hmi2 Hs2 Hf2 Hsum2.
  generalize (ms1 / 3600000) (ms1 / 60000 mod 60) (ms1 / 1000 mod 60)
             (ms1 mod 1000).
  generalize (ms2 / 3600000) (ms2 / 60000 mod 60) (ms2 / 1000 mod 60)
             (ms2 mod 1000).
  intros h2 mi2 s2 f2 h1 mi1 s1 f1.
  intros Hh1 Hmi1 Hs1 Hf1 Hsum1 Hh2 Hmi2 Hs2 Hf2 Hsum2.
  destruct (year_field y1 y2 Hy1 Hy2) as [Ly Cy].
  destruct (pad2_field m1 m2 ltac:(lia) ltac:(lia)) as [Lm Cm].
  destruct (pad2_field d1 d2 ltac:(lia) ltac:(lia)) as [Ld Cd].
  destruct (pad2_field h1 h2 ltac:(lia) ltac:(lia)) as [Lh Ch].
  destruct (pad2_field mi1 mi2 ltac:(lia) ltac:(lia)) as [Lmi Cmi].
  destruct (pad2_field s1 s2 ltac:(lia) ltac:(lia)) as [Ls Cs].
  destruct (pad3_field f1 f2 ltac:(lia) ltac:(lia)) as [Lf Cf].
  rewrite (compare_app _ _ _ _ Ly), compare_separator.
  rewrite (compare_app _ _ _ _ Lm), compare_separator.
  rewrite (compare_app _ _ _ _ Ld), compare_separator.
  rewrite (compare_app _ _ _ _ Lh), compare_separator.
  rewrite (compare_app _ _ _ _ Lmi), compare_separator.
  rewrite (compare_app _ _ _ _ Ls), compare_separator.
  rewrite (compare_app _ _ _ _ Lf), compare_refl.
  rewrite Cy, Cm, Cd, Ch, Cmi, Cs, Cf.
  unfold JS.msPerDay in *.
  assert (day1 < day2 \/ (day1 = day2 /\ ms1 < ms2)) as [Hday | [Hday Hms]]
    by lia.
  - specialize (Hkey Hday).
    destruct (Z.compare_spec y1 y2); [subst | reflexivity | lia].
    destruct (Z.compare_spec m1 m2); [subst | reflexivity | lia].
    destruct (Z.compare_spec d1 d2); [lia | reflexivity | lia].
  - specialize (Hsame Hday). injection Hsame as -> -> ->.
    rewrite !Z.compare_refl. simpl.
    destruct (Z.compare_spec h1 h2); [subst | reflexivity | lia].
    destruct (Z.compare_spec mi1 mi2); [subst | reflexivity | lia].
    destruct (Z.compare_spec s1 s2); [subst | reflexivity | lia].
    destruct (Z.compare_spec f1 f2); [lia | reflexivity | lia].
Qed.

(** Within the four-digit years, the order of the rendered strings is the
    order of the instants. *)
Lemma toISOString_leb (t1 t2 : Z) :
  four_digit_years t1 -> four_digit_years t2 -> t1 <= t2 ->
  String.leb (JS.Date_toISOString t1) (JS.Date_toISOString t2) = true.
Proof.
  intros R1 R2 Hle. unfold String.leb.
  destruct (Z.eq_dec t1 t2) as [-> | Hne].
  - rewrite compare_refl. reflexivity.
  - rewrite (toISOString_increasing t1 t2 R1 R2 ltac:(lia)). reflexivity.
Qed.

End TimestampOrder.

(* ===================================================================== *)
(** ** The info provider *)
(* ===================================================================== *)

Section InfoProvider.

Import AppService.

(** The truthiness test behind [||] never lets an empty string through. *)
Lemma or_else_nonempty (a : option string) (b : string) :
  b <> EmptyString -> JS.or_else a b <> EmptyString.
Proof.
  intros Hb. destruct a as [[|c s]|]; simpl; try exact Hb. discriminate.
Qed.

Lemma or_else_falsy (a : option string) (b : string) :
  a = None \/ a = Some EmptyString -> JS.or_else a b = b.
Proof. intros [-> | ->]; reflexivity. Qed.

Lemma or_else_truthy (c : Ascii.ascii) (s b : string) :
  JS.or_else (Some (String c s)) b = String c s.
Proof. reflexivity. Qed.

(** The controller adds nothing to what the service answers. *)
Lemma controller_delegates (p : Process.t) :
  AppController.getHello = getHello /\
  AppController.getHealth p = getHealth p /\
  AppController.getInfo p = getInfo p.
Proof. repeat split. Qed.

End InfoProvider.

(** C5. Every call of the health endpoint returns a snapshot (the
    operation is a total function, it has no error result) whose status is
    the literal "ok", and whose uptime is non-negative whenever the
    process's uptime counter is. *)
Theorem getHealth_status_ok (p : Process.t) :
  exists h : AppService.Health,
    AppController.getHealth p = h /\
    AppService.status h = "ok" /\
    ((0 <= Process.uptime p)%Q -> (0 <= AppService.uptime h)%Q).
Proof.
  exists (AppService.getHealth p). split; [reflexivity | split].
  - reflexivity.
  - intros Hup. exact Hup.
Qed.

Lemma getHealth_status_ok_witness :
  exists h : AppService.Health,
    AppController.getHealth sample_process = h /\
    AppService.status h = "ok" /\ (0 <= AppService.uptime h)%Q.
Proof.
  destruct (getHealth_status_ok sample_process) as [h [Hh [Hs Hu]]].
  exists h. split; [exact Hh | split; [exact Hs |]].
  apply Hu. vm_compute. discriminate.
Defined.

(** C6. Whatever [NODE_ENV] holds (unset, empty, or any string), every
    field of the service information is a non-empty string, provided the
    runtime's version string is non-empty. *)
Theorem getInfo_fields_nonempty (p : Process.t) :
  Process.version p <> EmptyString ->
  AppService.name (AppController.getInfo p) <> EmptyString /\
  AppService.version (AppController.getInfo p) <> EmptyString /\
  AppService.environment (AppController.getInfo p) <> EmptyString /\
  AppService.nodeVersion (AppController.getInfo p) <> EmptyString.
Proof.
  intros Hv. repeat split; simpl; try discriminate.
  - apply or_else_nonempty. discriminate.
  - exact Hv.
Qed.

Lemma getInfo_fields_nonempty_witness :
  AppService.name (AppController.getInfo sample_process) <> EmptyString /\
  AppService.version (AppController.getInfo sample_process) <> EmptyString /\
  AppService.environment (AppController.getInfo sample_process) <> EmptyString /\
  AppService.nodeVersion (AppController.getInfo sample_process) <> EmptyString.
Proof.
  apply (getInfo_fields_nonempty sample_process). simpl. discriminate.
Defined.

(** C10. With [NODE_ENV] unset, or set to the empty string, the
    environment field is "development": the empty string counts as
    absent. *)
Theorem getInfo_environment_default (p : Process.t) :
  Process.env p !! "NODE_ENV" = None \/
  Process.env p !! "NODE_ENV" = Some EmptyString ->
  AppService.environment (AppController.getInfo p) = "development".
Proof.
  intros H. simpl. apply or_else_falsy. exact H.
Qed.

Lemma getInfo_environment_default_witness :
  Process.env sample_process !! "NODE_ENV" = Some EmptyString /\
  AppService.environment (AppController.getInfo sample_process)
    = "development".
Proof.
  split.
  - vm_compute. reflexivity.
  - apply (getInfo_environment_default sample_process).
    right. vm_compute. reflexivity.
Defined.

(** A set, non-empty [NODE_ENV] is passed through. *)
Example getInfo_environment_production :
  AppService.environment
    (AppController.getInfo
       {| Process.now := 0; Process.uptime := 0;
          Process.env := <["NODE_ENV" := "production"]> ∅;
          Process.version := "v20.11.0" |})
  = "production".
Proof. vm_compute. reflexivity. Qed.

(** C7. Two successive calls of the same endpoint, with the environment
    and the runtime version unchanged, and the clock and the uptime
    counter not running backwards: the greeting and the service
    information are identical, the health status is identical, and the
    health timestamp and uptime of the second call are not before those
    of the first. The timestamps are in chronological order, and, for
    clocks within the four-digit years, in the order of strings as
    well. *)
Theorem read_endpoints_idempotent (p1 p2 : Process.t) :
  Process.env p1 = Process.env p2 ->
  Process.version p1 = Process.version p2 ->
  Process.now p1 <= Process.now p2 ->
  (Process.uptime p1 <= Process.uptime p2)%Q ->
  AppController.getHello = "Hello from NestJS Backend!" /\
  AppController.getInfo p1 = AppController.getInfo p2 /\
  AppService.status (AppController.getHealth p1)
    = AppService.status (AppController.getHealth p2) /\
  chronological (AppService.timestamp (AppController.getHealth p1))
                (AppService.timestamp (AppController.getHealth p2)) /\
  (four_digit_years (Process.now p1) -> four_digit_years (Process.now p2) ->
   String.leb (AppService.timestamp (AppController.getHealth p1))
              (AppService.timestamp (AppController.getHealth p2)) = true) /\
  (AppService.uptime (AppController.getHealth p1)
     <= AppService.uptime (AppController.getHealth p2))%Q.
Proof.
  intros Henv Hver Hnow Hup.
  split; [reflexivity |]. split.
  - unfold AppController.getInfo, AppService.getInfo.
    rewrite Henv, Hver. reflexivity.
  - split; [reflexivity |]. split; [| split].
    + exists (Process.now p1), (Process.now p2). simpl. auto.
    + intros R1 R2. simpl. apply toISOString_leb; assumption.
    + simpl. exact Hup.
Qed.

Lemma read_endpoints_idempotent_witness :
  AppController.getHello = "Hello from NestJS Backend!" /\
  AppController.getInfo sample_process
    = AppController.getInfo sample_process_later /\
  AppService.status (AppController.getHealth sample_process)
    = AppService.status (AppController.getHealth sample_process_later) /\
  chronological
    (AppService.timestamp (AppController.getHealth sample_process))
    (AppService.timestamp (AppController.getHealth sample_process_later)) /\
  String.leb
    (AppService.timestamp (AppController.getHealth sample_process))
    (AppService.timestamp (AppController.getHealth sample_process_later))
    = true /\
  (AppService.uptime (AppController.getHealth sample_process)
     <= AppService.uptime (AppController.getHealth sample_process_later))%Q.
Proof.
  assert (Process.now sample_process <= Process.now sample_process_later)
    as Hnow by (vm_compute; discriminate).
  assert (Process.uptime sample_process
          <= Process.uptime sample_process_later)%Q
    as Hup by (vm_compute; discriminate).
  destruct (read_endpoints_idempotent sample_process sample_process_later
              eq_refl eq_refl Hnow Hup)
    as [Hhello [Hinfo [Hstatus [Hchrono [Hstring Huptime]]]]].
  split; [exact Hhello |]. split; [exact Hinfo |].
  split; [exact Hstatus |]. split; [exact Hchrono |].
  split; [| exact Huptime].
  apply Hstring; unfold four_digit_years; simpl; lia.
Defined.

Example getHealth_sample :
  AppController.getHealth sample_process =
  {| AppService.status := "ok";
     AppService.timestamp := "2024-01-01T00:00:00.000Z";
     AppService.uptime := 5.5 |}.
Proof. vm_compute. reflexivity. Qed.

(* ===================================================================== *)
(** ** Uptime formatting *)
(* ===================================================================== *)

Section Uptime.

Local Open Scope Q_scope.

Lemma Qfloor_div_pos (s : Q) (b : positive) :
  Qfloor (s / inject_Z (Zpos b)) = (Qfloor s / Zpos b)%Z.
Proof.
  destruct s as [n d]. unfold Qdiv, Qmult, Qinv, Qfloor, inject_Z. simpl.
  rewrite Z.mul_1_r, Pos2Z.inj_mul, Z.div_div; lia.
Qed.

Lemma Qfloor_sub_Z (s : Q) (k : Z) :
  Qfloor (s - inject_Z k) = (Qfloor s - k)%Z.
Proof.
  destruct s as [n d]. unfold Qminus, Qplus, Qopp, Qfloor, inject_Z. simpl.
  rewrite Pos.mul_1_r, Z.mul_1_r.
  replace (n + - k * Z.pos d)%Z with (n + (- k) * Z.pos d)%Z by lia.
  rewrite Z.div_add by lia. lia.
Qed.

Lemma Qdiv_pos_nonneg (s : Q) (b : positive) :
  0 <= s -> 0 <= s / inject_Z (Zpos b).
Proof.
  intros Hs. apply Qle_shift_div_l.
  - reflexivity.
  - rewrite Qmult_0_l. exact Hs.
Qed.

Lemma truncate_nonneg (x : Q) : 0 <= x -> JS.truncate x = Qfloor x.
Proof.
  intros Hx. unfold JS.truncate.
  apply Qle_bool_iff in Hx. rewrite Hx. reflexivity.
Qed.

(** For a non-negative dividend and a positive whole divisor, [%] takes
    the whole part to its remainder. *)
Lemma Qfloor_rem (s : Q) (b : positive) :
  0 <= s ->
  Qfloor (JS.rem s (inject_Z (Zpos b))) = (Qfloor s mod Zpos b)%Z.
Proof.
  intros Hs. unfold JS.rem.
  rewrite truncate_nonneg by (apply Qdiv_pos_nonneg; exact Hs).
  rewrite Qfloor_div_pos.
  rewrite <- inject_Z_mult.
  rewrite Qfloor_sub_Z.
  rewrite Z.mod_eq by lia. reflexivity.
Qed.

Lemma uptime_parts (s : Q) :
  0 <= s ->
  JS.Math_floor (s / 3600) = (Qfloor s / 3600)%Z /\
  JS.Math_floor (JS.rem s 3600 / 60) = (Qfloor s mod 3600 / 60)%Z /\
  JS.Math_floor (JS.rem s 60) = (Qfloor s mod 60)%Z.
Proof.
  intros Hs. unfold JS.Math_floor.
  change 3600 with (inject_Z (Zpos 3600)).
  change 60 with (inject_Z (Zpos 60)).
  rewrite !Qfloor_div_pos, !Qfloor_rem by exact Hs.
  repeat split.
Qed.

End Uptime.

Example Number_toString_digits :
  JS.Number_toString 0 = "0" /\ JS.Number_toString 59 = "59" /\
  JS.Number_toString (-60) = "-60" /\
  JS.Number_toString 79739779294727 = "79739779294727".
Proof. vm_compute. repeat split. Qed.

(** C8. 3661 seconds are shown as "1h 1m 1s". *)
Theorem formatUptime_3661 : App.formatUptime 3661 = "1h 1m 1s".
Proof. vm_compute. reflexivity. Qed.

Section NumberText.

(** Decimal digits only. *)
Lemma uint_chars (d : Decimal.uint) :
  Forall (fun c => In c (chars "-0123456789"))
         (chars (NilEmpty.string_of_uint d)).
Proof.
  induction d; simpl; constructor; try assumption; simpl; tauto.
Qed.

(** The text of a number holds digits and the minus sign only. *)
Lemma Number_toString_chars (n : Z) :
  Forall (fun c => In c (chars "-0123456789")) (chars (JS.Number_toString n)).
Proof.
  unfold JS.Number_toString, NilZero.string_of_int.
  destruct (Z.to_int n) as [d | d].
  - destruct d; try apply uint_chars.
    simpl. constructor; [simpl; tauto | constructor].
  - simpl. constructor; [simpl; tauto |].
    destruct d; try apply uint_chars.
    simpl. constructor; [simpl; tauto | constructor].
Qed.

Lemma Number_toString_inj (a b : Z) :
  JS.Number_toString a = JS.Number_toString b -> a = b.
Proof.
  unfold JS.Number_toString. intros H.
  apply DecimalZ.to_int_inj.
  assert (forall z, Z.to_int z <> Decimal.Pos Decimal.Nil /\
                    Z.to_int z <> Decimal.Neg Decimal.Nil) as Hnn.
  { intros [| p | p]; simpl; split; try discriminate;
      intros [= E]; exact (DecimalPos.Unsigned.to_uint_nonnil p E). }
  destruct (Hnn a) as [Ha1 Ha2]. destruct (Hnn b) as [Hb1 Hb2].
  pose proof (NilZero.isi _ Ha1 Ha2) as Ea.
  pose proof (NilZero.isi _ Hb1 Hb2) as Eb.
  rewrite H in Ea. congruence.
Qed.

(** Two texts that agree, each cut at the first occurrence of a character
    that its first part does not hold, agree part by part. *)
Lemma split_at (c : Ascii.ascii) (a1 a2 r1 r2 : string) :
  ~ In c (chars a1) -> ~ In c (chars a2) ->
  a1 +:+ String c r1 = a2 +:+ String c r2 ->
  a1 = a2 /\ r1 = r2.
Proof.
  revert a2. induction a1 as [| x a1 IH]; intros [| y a2] H1 H2 Heq;
    simpl in *.
  - injection Heq as ->. split; reflexivity.
  - injection Heq as -> _. exfalso. apply H2. left. reflexivity.
  - injection Heq as -> _. exfalso. apply H1. left. reflexivity.
  - injection Heq as -> Heq.
    assert (a1 = a2 /\ r1 = r2) as [-> ->]
      by (apply IH; [tauto | tauto | exact Heq]).
    split; reflexivity.
Qed.

Lemma split_number (c : Ascii.ascii) (n1 n2 : Z) (r1 r2 : string) :
  ~ In c (chars "-0123456789") ->
  JS.Number_toString n1 +:+ String c r1
    = JS.Number_toString n2 +:+ String c r2 ->
  n1 = n2 /\ r1 = r2.
Proof.
  intros Hc Heq.
  assert (forall n, ~ In c (chars (JS.Number_toString n))) as Hn.
  { intros n Hin. apply Hc.
    pose proof (Number_toString_chars n) as Hall.
    rewrite List.Forall_forall in Hall. apply Hall. exact Hin. }
  destruct (split_at c _ _ _ _ (Hn n1) (Hn n2) Heq) as [Hnum Hrest].
  split; [apply Number_toString_inj; exact Hnum | exact Hrest].
Qed.

(** The text determines the three numbers. *)
Lemma uptime_text_inj (a b : Z * Z * Z) :
  uptime_text a = uptime_text b -> a = b.
Proof.
  destruct a as [[h1 m1] s1], b as [[h2 m2] s2]. unfold uptime_text.
  intros H.
  apply split_number in H; [| simpl; intuition discriminate].
  destruct H as [-> H]. injection H as H.
  apply split_number in H; [| simpl; intuition discriminate].
  destruct H as [-> H]. injection H as H.
  apply split_number in H; [| simpl; intuition discriminate].
  destruct H as [-> _]. reflexivity.
Qed.

End NumberText.

(* ===================================================================== *)
(** ** Uptime formatting on binary64 values *)
(* ===================================================================== *)

Section Rounding.

Local Open Scope Q_scope.

Lemma pow2_pos (e : Z) : 0 < 2 ^ e.
Proof. apply Qpower_0_lt. reflexivity. Qed.

Lemma pow2_nonzero (e : Z) : ~ 2 ^ e == 0.
Proof. intros H. pose proof (pow2_pos e) as P. rewrite H in P. discriminate P. Qed.

Lemma pow2_Z (e : Z) : (0 <= e)%Z -> 2 ^ e == inject_Z (2 ^ e).
Proof. intros He. rewrite Zpower_Qpower by exact He. reflexivity. Qed.

Lemma pow2_le (a b : Z) : (a <= b)%Z -> 2 ^ a <= 2 ^ b.
Proof. intros H. apply Qpower_le_compat_l; [exact H | discriminate]. Qed.

Lemma pow2_lt_inv (a b : Z) : 2 ^ a < 2 ^ b -> (a < b)%Z.
Proof. intros H. apply (Qpower_lt_compat_l_inv 2); [exact H | reflexivity]. Qed.

Lemma pow2_split (e b : Z) :
  (e <= b)%Z -> 2 ^ b == inject_Z (2 ^ (b - e)) * 2 ^ e.
Proof.
  intros H. rewrite <- pow2_Z by lia.
  rewrite <- Qpower_plus by discriminate.
  replace (b - e + e)%Z with b by lia. reflexivity.
Qed.

(** [magnitude] is the binary logarithm, rounded down. *)
Lemma magnitude_spec (x : Q) :
  0 < x ->
  2 ^ Rounded.magnitude x <= x /\ x < 2 ^ (Rounded.magnitude x + 1).
Proof.
  intros Hx. unfold Rounded.magnitude.
  destruct x as [n d]. cbn [Qnum Qden].
  assert (0 < n)%Z as Hn by (unfold Qlt in Hx; simpl in Hx; lia).
  pose proof (Z.log2_spec n Hn) as [Hn1 Hn2].
  pose proof (Z.log2_spec (Zpos d) ltac:(lia)) as [Hd1 Hd2].
  pose proof (Z.log2_nonneg n) as Ha.
  pose proof (Z.log2_nonneg (Zpos d)) as Hb.
  set (a := Z.log2 n) in *. set (b := Z.log2 (Zpos d)) in *.
  rewrite Z.pow_succ_r in Hn2, Hd2 by assumption.
  assert (0 < 2 ^ a)%Z as Pa by (apply Z.pow_pos_nonneg; lia).
  assert (0 < 2 ^ b)%Z as Pb by (apply Z.pow_pos_nonneg; lia).
  assert (forall c : Z, 2 ^ (a - b + c)
                        == inject_Z (2 ^ a) * 2 ^ c / inject_Z (2 ^ b))
    as Hpow.
  { intros c. rewrite Qpower_plus, Qpower_minus by discriminate.
    rewrite !pow2_Z by assumption. field.
    intros E. unfold Qeq, inject_Z in E. simpl in E. lia. }
  assert (0 < inject_Z (2 ^ b)) as PbQ
    by (unfold Qlt, inject_Z; simpl; lia).
  destruct (Qle_bool (2 ^ (a - b)) (n # d)) eqn:E.
  - apply Qle_bool_iff in E. split; [exact E |].
    rewrite Hpow. apply Qlt_shift_div_l; [exact PbQ |].
    rewrite Qpower_1_r.
    unfold Qlt, Qmult, inject_Z. cbn [Qnum Qden]. nia.
  - assert (~ 2 ^ (a - b) <= n # d) as E'
      by (intros H; apply Qle_bool_iff in H; congruence).
    apply Qnot_le_lt in E'.
    replace (a - b - 1 + 1)%Z with (a - b)%Z by lia.
    split; [| exact E'].
    replace (a - b - 1)%Z with (a - b + -1)%Z by lia.
    rewrite Hpow. apply Qle_shift_div_r; [exact PbQ |].
    change (2 ^ (-1)) with (1 # 2).
    unfold Qle, Qmult, inject_Z. cbn [Qnum Qden]. nia.
Qed.

Lemma magnitude_mono (x y : Q) :
  0 < x -> x <= y -> (Rounded.magnitude x <= Rounded.magnitude y)%Z.
Proof.
  intros Hx Hxy.
  assert (0 < y) as Hy by lra.
  destruct (magnitude_spec x Hx) as [Hx1 _].
  destruct (magnitude_spec y Hy) as [_ Hy2].
  assert (2 ^ Rounded.magnitude x < 2 ^ (Rounded.magnitude y + 1)) as H
    by lra.
  apply pow2_lt_inv in H. lia.
Qed.

Lemma round_half_even_cases (q : Q) :
  Rounded.round_half_even q = Qfloor q \/
  Rounded.round_half_even q = (Qfloor q + 1)%Z.
Proof.
  unfold Rounded.round_half_even.
  destruct (Qcompare _ _); [destruct (Z.even _) | |]; auto.
Qed.

Lemma round_half_even_Z (z : Z) : Rounded.round_half_even (inject_Z z) = z.
Proof.
  unfold Rounded.round_half_even. rewrite Qfloor_Z.
  destruct (Qcompare_spec (inject_Z z - inject_Z z) (1 # 2)) as [H | H | H];
    [exfalso; lra | reflexivity | exfalso; lra].
Qed.

Lemma round_half_even_mono (p q : Q) :
  p <= q -> (Rounded.round_half_even p <= Rounded.round_half_even q)%Z.
Proof.
  intros Hpq. pose proof (Qfloor_resp_le _ _ Hpq) as Hf.
  destruct (Z.eq_dec (Qfloor p) (Qfloor q)) as [E | N].
  - unfold Rounded.round_half_even. rewrite <- E.
    destruct (Qcompare_spec (p - inject_Z (Qfloor p)) (1 # 2))
      as [H1 | H1 | H1];
    destruct (Qcompare_spec (q - inject_Z (Qfloor p)) (1 # 2))
      as [H2 | H2 | H2];
      try destruct (Z.even (Qfloor p)); try lia; exfalso; lra.
  - destruct (round_half_even_cases p) as [-> | ->];
    destruct (round_half_even_cases q) as [-> | ->]; lia.
Qed.

(** Rounding goes up by one half at most. *)
Lemma round_half_even_le (q : Q) :
  inject_Z (Rounded.round_half_even q) <= q + (1 # 2).
Proof.
  unfold Rounded.round_half_even.
  pose proof (Qfloor_le q) as Hlo.
  destruct (Qcompare_spec (q - inject_Z (Qfloor q)) (1 # 2)) as [H | H | H];
    try destruct (Z.even (Qfloor q)); rewrite ?inject_Z_plus;
    change (inject_Z 1) with 1; lra.
Qed.

Lemma scaled_le (x y : Q) (e : Z) : x <= y -> x / 2 ^ e <= y / 2 ^ e.
Proof.
  intros H. apply Qmult_le_compat_r; [exact H |].
  apply Qinv_le_0_compat. apply Qlt_le_weak. apply pow2_pos.
Qed.

(** Rounding at the bit [e] does not cross a power of two from [2^e] on. *)
Lemma rounded_le_pow (x : Q) (e b : Z) :
  (e <= b)%Z -> x <= 2 ^ b ->
  inject_Z (Rounded.round_half_even (x / 2 ^ e)) * 2 ^ e <= 2 ^ b.
Proof.
  intros Hb Hx. pose proof (pow2_split e b Hb) as Eb. rewrite Eb.
  apply Qmult_le_compat_r; [| apply Qlt_le_weak; apply pow2_pos].
  rewrite <- Zle_Qle.
  rewrite <- (round_half_even_Z (2 ^ (b - e))). apply round_half_even_mono.
  apply Qle_shift_div_r; [apply pow2_pos |].
  rewrite <- Eb. exact Hx.
Qed.

Lemma pow_le_rounded (x : Q) (e b : Z) :
  (e <= b)%Z -> 2 ^ b <= x ->
  2 ^ b <= inject_Z (Rounded.round_half_even (x / 2 ^ e)) * 2 ^ e.
Proof.
  intros Hb Hx. pose proof (pow2_split e b Hb) as Eb. rewrite Eb.
  apply Qmult_le_compat_r; [| apply Qlt_le_weak; apply pow2_pos].
  rewrite <- Zle_Qle.
  rewrite <- (round_half_even_Z (2 ^ (b - e))) at 1.
  apply round_half_even_mono.
  apply Qle_shift_div_l; [apply pow2_pos |].
  rewrite <- Eb. exact Hx.
Qed.

Lemma nearest_positive_mono (x y : Q) :
  0 < x -> x <= y -> Rounded.nearest_positive x <= Rounded.nearest_positive y.
Proof.
  intros Hx Hxy.
  assert (0 < y) as Hy by lra.
  pose proof (magnitude_mono x y Hx Hxy) as HL.
  destruct (magnitude_spec x Hx) as [Hx1 Hx2].
  destruct (magnitude_spec y Hy) as [Hy1 Hy2].
  unfold Rounded.nearest_positive.
  destruct (Z.eq_dec (Rounded.exponent x) (Rounded.exponent y)) as [E | N].
  - rewrite E.
    apply Qmult_le_compat_r; [| apply Qlt_le_weak; apply pow2_pos].
    rewrite <- Zle_Qle. apply round_half_even_mono. apply scaled_le.
    exact Hxy.
  - assert (Rounded.exponent y = Rounded.magnitude y - 52 /\
            Rounded.exponent x < Rounded.exponent y /\
            Rounded.magnitude x + 1 <= Rounded.magnitude y /\
            Rounded.magnitude x - 52 <= Rounded.exponent x)%Z
      as (Ey & Elt & Hm & Hex)
      by (unfold Rounded.exponent in *; lia).
    apply Qle_trans with (2 ^ Rounded.magnitude y).
    + destruct (Z_le_gt_dec (Rounded.exponent x) (Rounded.magnitude x + 1))
        as [Hbig | Hsmall].
      * apply Qle_trans with (2 ^ (Rounded.magnitude x + 1));
          [| apply pow2_le; lia].
        apply rounded_le_pow; [lia | lra].
      * apply Qle_trans with (2 ^ Rounded.exponent x);
          [| apply pow2_le; lia].
        apply rounded_le_pow; [lia |].
        apply Qle_trans with (2 ^ (Rounded.magnitude x + 1)); [lra |].
        apply pow2_le. lia.
    + apply pow_le_rounded; [lia | exact Hy1].
Qed.

Lemma nearest_positive_nonneg (x : Q) :
  0 < x -> 0 <= Rounded.nearest_positive x.
Proof.
  intros Hx. unfold Rounded.nearest_positive.
  apply Qmult_le_0_compat; [| apply Qlt_le_weak; apply pow2_pos].
  change 0 with (inject_Z 0). rewrite <- Zle_Qle.
  rewrite <- (round_half_even_Z 0). apply round_half_even_mono.
  apply Qle_shift_div_l; [apply pow2_pos |].
  change (inject_Z 0) with 0. rewrite Qmult_0_l. lra.
Qed.

Lemma nearest_of_positive (x : Q) :
  0 < x -> Rounded.nearest x = Rounded.nearest_positive x.
Proof.
  intros Hpos. unfold Rounded.nearest.
  destruct x as [[| n | n] d]; cbn [Qnum];
    try reflexivity; exfalso; unfold Qlt in Hpos; simpl in Hpos; lia.
Qed.

Lemma nearest_mono (x y : Q) :
  0 <= x -> x <= y -> Rounded.nearest x <= Rounded.nearest y.
Proof.
  intros Hx Hxy. unfold Rounded.nearest.
  destruct x as [[| n | n] d], y as [[| m | m] e]; cbn [Qnum];
    try (exfalso; unfold Qle in *; simpl in *; lia).
  - lra.
  - apply nearest_positive_nonneg. reflexivity.
  - apply nearest_positive_mono; [reflexivity | exact Hxy].
Qed.

(** The whole numbers up to 2^53 are binary64 values. *)
Lemma nearest_Z (z : Z) :
  (0 <= z <= 9007199254740992)%Z ->
  Rounded.nearest (inject_Z z) == inject_Z z.
Proof.
  intros Hz.
  destruct (Z.eq_dec z 0%Z) as [-> | Hnz]; [reflexivity |].
  assert (0 < inject_Z z) as Hpos by (unfold Qlt, inject_Z; simpl; lia).
  rewrite (nearest_of_positive _ Hpos).
  destruct (magnitude_spec _ Hpos) as [H1 H2].
  unfold Rounded.nearest_positive, Rounded.exponent.
  set (L := Rounded.magnitude (inject_Z z)) in *.
  assert (0 <= L <= 53)%Z as HL.
  { split.
    - assert (2 ^ 0 < 2 ^ (L + 1)) as H.
      { apply Qle_lt_trans with (inject_Z z); [| exact H2].
        change (2 ^ 0) with (inject_Z 1). rewrite <- Zle_Qle. lia. }
      apply pow2_lt_inv in H. lia.
    - assert (2 ^ L < 2 ^ 54) as H.
      { apply Qle_lt_trans with (inject_Z z); [exact H1 |].
        change (2 ^ 54) with (inject_Z 18014398509481984).
        rewrite <- Zlt_Qlt. lia. }
      apply pow2_lt_inv in H. lia. }
  replace (Z.max (-1074) (L - 52)) with (L - 52)%Z by lia.
  assert (exists k : Z, inject_Z z / 2 ^ (L - 52) == inject_Z k) as [k Hk].
  { destruct (Z_le_gt_dec L 52) as [Hsmall | Hbig].
    - exists (z * 2 ^ (52 - L))%Z.
      rewrite inject_Z_mult, <- pow2_Z by lia.
      replace (52 - L)%Z with (- (L - 52))%Z by lia.
      rewrite Qpower_opp. reflexivity.
    - assert (L = 53)%Z as -> by lia.
      assert (z = 9007199254740992)%Z as ->.
      { change (2 ^ 53) with (inject_Z 9007199254740992) in H1.
        rewrite <- Zle_Qle in H1. lia. }
      exists 4503599627370496%Z. reflexivity. }
  assert (Rounded.round_half_even (inject_Z z / 2 ^ (L - 52)) = k) as ->.
  { rewrite <- (round_half_even_Z k).
    apply Z.le_antisymm; apply round_half_even_mono; rewrite Hk;
      apply Qle_refl. }
  rewrite <- Hk. field. apply pow2_nonzero.
Qed.

(** From one half up to 2^53 the rounded value is at most one part in 2^53
    above. *)
Lemma nearest_accurate (x : Q) :
  1 # 2 <= x -> x <= 9007199254740992 ->
  Rounded.nearest x <= x + x * (1 # 9007199254740992).
Proof.
  intros Hlo Hhi.
  assert (0 < x) as Hpos by lra.
  rewrite (nearest_of_positive _ Hpos).
  destruct (magnitude_spec _ Hpos) as [H1 H2].
  unfold Rounded.nearest_positive, Rounded.exponent.
  set (L := Rounded.magnitude x) in *.
  assert (-1 <= L)%Z as HL.
  { assert (2 ^ (-1) < 2 ^ (L + 1)) as H.
    { apply Qle_lt_trans with x; [| exact H2]. exact Hlo. }
    apply pow2_lt_inv in H. lia. }
  replace (Z.max (-1074) (L - 52)) with (L - 52)%Z by lia.
  pose proof (round_half_even_le (x / 2 ^ (L - 52))) as Hr.
  pose proof (pow2_pos (L - 52)) as Hp.
  apply Qle_trans with ((x / 2 ^ (L - 52) + (1 # 2)) * 2 ^ (L - 52)).
  - apply Qmult_le_compat_r; [exact Hr | lra].
  - assert (2 ^ (L - 52) == 2 ^ L * (1 # 4503599627370496)) as E.
    { replace (L - 52)%Z with (L + (-52))%Z by lia.
      rewrite Qpower_plus by discriminate. reflexivity. }
    assert ((x / 2 ^ (L - 52) + (1 # 2)) * 2 ^ (L - 52)
            == x + 2 ^ L * (1 # 9007199254740992)) as ->.
    { transitivity (x + (1 # 2) * 2 ^ (L - 52)).
      - field. apply pow2_nonzero.
      - rewrite E. ring. }
    pose proof (pow2_pos L). nra.
Qed.

(** Rounding to nearest has the four properties. *)
Lemma nearest_binary64 : Rounded.binary64 Rounded.nearest.
Proof.
  split.
  - exact nearest_mono.
  - exact nearest_Z.
  - reflexivity.
  - exact nearest_accurate.
Qed.

(** The exact division has them too. *)
Lemma exact_binary64 : Rounded.binary64 (fun x : Q => x).
Proof.
  split.
  - intros x y _ H. exact H.
  - intros z _. reflexivity.
  - reflexivity.
  - intros x Hlo _. nra.
Qed.

Variable rnd : Q -> Q.
Hypothesis Hrnd : Rounded.binary64 rnd.

Lemma rnd_proper (x y : Q) : 0 <= x -> x == y -> rnd x == rnd y.
Proof.
  intros Hx E. apply Qle_antisym; apply (Rounded.rnd_monotone rnd Hrnd);
    lra.
Qed.

(** A rounded fraction has the whole part of the fraction when rounding
    cannot reach the next whole number: numerator and denominator are
    multiples of [g], so that the fraction is at least [g] parts of the
    denominator below it, and the numerator is below [g] times 2^53. *)
Lemma floor_rounded (N : Z) (D : positive) (g : Z) :
  (0 < g)%Z -> (g | N)%Z -> (g | Zpos D)%Z ->
  (0 <= N < g * 9007199254740992)%Z ->
  Qfloor (rnd (N # D)) = Qfloor (N # D).
Proof.
  intros Hg [n Hn] [d Hd] HN.
  set (y := N # D).
  assert (0 <= y) as Hy0 by (unfold y, Qle; simpl; lia).
  pose proof (Qfloor_le y) as Hlo.
  assert (0 <= Qfloor y)%Z as HK0.
  { change 0%Z with (Qfloor 0). apply Qfloor_resp_le. exact Hy0. }
  assert (0 < d)%Z as Hd0 by nia.
  assert (Qfloor y <= 9007199254740992)%Z as HKm.
  { unfold y, Qfloor. cbn [Qnum Qden].
    apply Z.div_le_upper_bound; [lia | nia]. }
  assert (N + g <= Zpos D * (Qfloor y + 1))%Z as Hgap.
  { unfold y, Qfloor. cbn [Qnum Qden].
    pose proof (Z.div_mod N (Zpos D) ltac:(lia)) as Hdm.
    pose proof (Z.mod_pos_bound N (Zpos D) ltac:(lia)) as Hf.
    revert Hdm Hf. generalize (N / Zpos D)%Z (N mod Zpos D)%Z.
    intros K f Hdm Hf.
    assert (f = g * (n - d * K))%Z as Ef by lia.
    assert (n - d * K < d)%Z by nia.
    nia. }
  apply Z.le_antisymm.
  - assert (rnd y < inject_Z (Qfloor y + 1)) as Hlt.
    { destruct (Qlt_le_dec y (1 # 2)) as [Hsmall | Hbig].
      - apply Qle_lt_trans with (1 # 2).
        + rewrite <- (Rounded.rnd_half rnd Hrnd).
          apply (Rounded.rnd_monotone rnd Hrnd); [exact Hy0 |].
          apply Qlt_le_weak. exact Hsmall.
        + unfold Qlt, inject_Z. cbn [Qnum Qden]. lia.
      - apply Qle_lt_trans with (y + y * (1 # 9007199254740992)).
        + apply (Rounded.rnd_accurate rnd Hrnd); [exact Hbig |].
          unfold y, Qle, inject_Z. cbn [Qnum Qden]. nia.
        + revert Hgap. generalize (Qfloor y). intros K HK.
          unfold y, Qlt, Qmult, Qplus, inject_Z.
          cbn [Qnum Qden]. rewrite ?Pos2Z.inj_mul. nia. }
    assert (inject_Z (Qfloor (rnd y)) < inject_Z (Qfloor y + 1)) as Hz
      by (apply Qle_lt_trans with (rnd y); [apply Qfloor_le | exact Hlt]).
    rewrite <- Zlt_Qlt in Hz. lia.
  - rewrite <- (Qfloor_Z (Qfloor y)) at 1. apply Qfloor_resp_le.
    rewrite <- (Rounded.rnd_integer rnd Hrnd (Qfloor y)) by lia.
    apply (Rounded.rnd_monotone rnd Hrnd); [| exact Hlo].
    change 0 with (inject_Z 0). rewrite <- Zle_Qle. exact HK0.
Qed.

(** A binary64 value below 2^57 as a fraction: a whole number that is a
    multiple of a divisor [g] of 3600 and lies below [g] times 2^53 (the
    values from 2^53 on are multiples of 2, 4, 8 or 16), or a whole number
    below 2^53 over a power of two. *)
Lemma below_fraction (s : Q) :
  Rounded.below_2_57 s ->
  exists (N : Z) (D : positive) (g : Z),
    (0 < g)%Z /\ (g | N)%Z /\ (g | 3600)%Z /\
    (0 <= N < g * 9007199254740992)%Z /\
    (D = 1%positive \/ g = 1%Z) /\
    s == N # D.
Proof.
  intros (m & e & Hm & He & Hs).
  destruct (Z_le_gt_dec 0 e) as [Hpos | Hneg].
  - exists (m * 2 ^ e)%Z, 1%positive, (2 ^ e)%Z.
    assert (0 < 2 ^ e)%Z as Hp by (apply Z.pow_pos_nonneg; lia).
    split; [exact Hp |].
    split; [exists m; reflexivity |].
    split.
    { exists (225 * 2 ^ (4 - e))%Z.
      rewrite <- Z.mul_assoc, <- Z.pow_add_r by lia.
      replace (4 - e + e)%Z with 4%Z by lia. reflexivity. }
    split; [nia |]. split; [left; reflexivity |].
    rewrite Hs, (pow2_Z e Hpos), <- inject_Z_mult. reflexivity.
  - assert (0 < 2 ^ (- e))%Z as HP by (apply Z.pow_pos_nonneg; lia).
    destruct (2 ^ (- e))%Z as [| p | p] eqn:EP; try lia.
    exists m, p, 1%Z.
    split; [lia |]. split; [exists m; lia |]. split; [exists 3600%Z; lia |].
    split; [lia |]. split; [right; reflexivity |].
    rewrite Hs.
    replace e with (- (- e))%Z by lia.
    rewrite Qpower_opp, (pow2_Z (- e)) by lia. rewrite EP.
    unfold Qeq, Qmult, Qinv, inject_Z. simpl. lia.
Qed.

Lemma fraction_nonneg (s : Q) (m : Z) (D : positive) :
  (0 <= m)%Z -> s == m # D -> 0 <= s.
Proof. intros Hm ->. unfold Qle. simpl. lia. Qed.

(** The division of such a fraction by a positive whole number has the
    same whole part rounded and exact. *)
Lemma floor_div_rounded (x : Q) (N : Z) (D b : positive) (g : Z) :
  (0 < g)%Z -> (g | N)%Z -> (g | Zpos b)%Z ->
  (0 <= N < g * 9007199254740992)%Z -> x == N # D ->
  Qfloor (Rounded.div rnd x (inject_Z (Zpos b)))
  = Qfloor (x / inject_Z (Zpos b)).
Proof.
  intros Hg HgN Hgb HN Hx. unfold Rounded.div.
  assert (x / inject_Z (Zpos b) == N # (D * b)) as E.
  { rewrite Hx. unfold Qeq, Qdiv, Qmult, Qinv, inject_Z. simpl. lia. }
  assert (0 <= x / inject_Z (Zpos b)) as Hq
    by (rewrite E; unfold Qle; simpl; lia).
  rewrite (Qfloor_comp _ _ (rnd_proper _ _ Hq E)).
  rewrite (floor_rounded N (D * b) g Hg HgN); [| | exact HN].
  - symmetry. apply Qfloor_comp. exact E.
  - rewrite Pos2Z.inj_mul. apply Z.divide_mul_r. exact Hgb.
Qed.

(** The remainder keeps the denominator; its numerator is not larger, and
    stays below the divisor times the denominator. *)
Lemma rem_fraction (s : Q) (N : Z) (D b : positive) :
  (0 <= N)%Z -> s == N # D ->
  exists N' : Z,
    (0 <= N' <= N)%Z /\ (N' < Zpos b * Zpos D)%Z /\
    JS.rem s (inject_Z (Zpos b)) == N' # D.
Proof.
  intros HN Hs.
  pose proof (fraction_nonneg s N D HN Hs) as Hs0.
  set (t := JS.truncate (s / inject_Z (Zpos b))).
  assert (t = (Qfloor s / Zpos b)%Z) as Ht.
  { unfold t. rewrite truncate_nonneg by (apply Qdiv_pos_nonneg; exact Hs0).
    apply Qfloor_div_pos. }
  assert (Qfloor s = (N / Zpos D)%Z) as Hf
    by (rewrite (Qfloor_comp _ _ Hs); reflexivity).
  exists (N - Zpos b * t * Zpos D)%Z. split; [| split].
  - rewrite Ht, Hf.
    pose proof (Z.div_pos N (Zpos D) ltac:(lia) ltac:(lia)) as Hq.
    pose proof (Z.mul_div_le N (Zpos D) ltac:(lia)) as Hle.
    revert Hq Hle. generalize (N / Zpos D)%Z. intros q Hq Hle.
    pose proof (Z.div_pos q (Zpos b) Hq ltac:(lia)) as Hq'.
    pose proof (Z.mul_div_le q (Zpos b) ltac:(lia)) as Hle'.
    revert Hq' Hle'. generalize (q / Zpos b)%Z. intros q' Hq' Hle'.
    nia.
  - rewrite Ht, Hf.
    pose proof (Z.div_mod N (Zpos D) ltac:(lia)) as Hdm.
    pose proof (Z.mod_pos_bound N (Zpos D) ltac:(lia)) as Hr.
    revert Hdm Hr. generalize (N / Zpos D)%Z (N mod Zpos D)%Z.
    intros q f Hdm Hr.
    pose proof (Z.div_mod q (Zpos b) ltac:(lia)) as Hdm'.
    pose proof (Z.mod_pos_bound q (Zpos b) ltac:(lia)) as Hr'.
    revert Hdm' Hr'. generalize (q / Zpos b)%Z (q mod Zpos b)%Z.
    intros q' f' Hdm' Hr'.
    nia.
  - change (JS.rem s (inject_Z (Zpos b)))
      with (s - inject_Z (Zpos b) * inject_Z t).
    rewrite Hs. unfold Qeq, Qminus, Qplus, Qopp, Qmult, inject_Z. simpl.
    rewrite ?Pos2Z.inj_mul. ring.
Qed.

(** Below 2^57 the rounding of the two divisions changes none of the three
    numbers. *)
Lemma rounded_fields (s : Q) :
  Rounded.below_2_57 s -> Rounded.uptime_fields rnd s = uptime_fields s.
Proof.
  intros Hs.
  destruct (below_fraction s Hs) as (N & D & g & Hg & HgN & Hg3600 & HN & Hshape & Es).
  destruct (rem_fraction s N D 3600 ltac:(lia) Es) as (N' & HN' & Hlt & Er).
  unfold Rounded.uptime_fields, uptime_fields, JS.Math_floor.
  change 3600 with (inject_Z (Zpos 3600)).
  change 60 with (inject_Z (Zpos 60)).
  rewrite (floor_div_rounded s N D 3600 g Hg HgN Hg3600 HN Es).
  rewrite (floor_div_rounded _ N' D 60 1); [reflexivity | lia | | | | exact Er].
  - exists N'. lia.
  - exists 60%Z. lia.
  - destruct Hshape as [-> | ->]; lia.
Qed.

Lemma rounded_text (s : Q) :
  Rounded.below_2_57 s -> Rounded.formatUptime rnd s = App.formatUptime s.
Proof.
  intros Hs.
  change (Rounded.formatUptime rnd s)
    with (uptime_text (Rounded.uptime_fields rnd s)).
  rewrite (rounded_fields s Hs). reflexivity.
Qed.

Lemma below_nonneg (s : Q) : Rounded.below_2_57 s -> 0 <= s.
Proof.
  intros Hs.
  destruct (below_fraction s Hs) as (N & D & g & _ & _ & _ & HN & _ & Es).
  apply (fraction_nonneg s N D); [lia | exact Es].
Qed.

End Rounding.

(** The binary64 division is the exact one rounded by [Rounded.nearest],
    on the divisions of three sample uptimes. *)
Example div_is_nearest :
  Double.equals (Double.div (Double.of_Z 3661) (Double.of_Z 3600))
    (Rounded.nearest (3661 / 3600)) = true /\
  Double.equals (Double.div (Double.of_Z 59) (Double.of_Z 60))
    (Rounded.nearest (59 / 60)) = true /\
  Double.equals
    (Double.div (Double.of_Z 287063205461017184) (Double.of_Z 3600))
    (Rounded.nearest (287063205461017184 / 3600)) = true.
Proof. vm_compute. repeat split. Qed.

Example formatUptime_double_3661 :
  Double.formatUptime (Double.of_Z 3661) = Some "1h 1m 1s".
Proof. vm_compute. reflexivity. Qed.

(** 86399.875 seconds. *)
Example formatUptime_double_fraction :
  Double.formatUptime (S754_finite false 691199 (-3)) = Some "23h 59m 59s" /\
  Rounded.formatUptime Rounded.nearest (691199 # 8) = "23h 59m 59s" /\
  App.formatUptime (691199 # 8) = "23h 59m 59s".
Proof. vm_compute. repeat split. Qed.

(** 2^56 + 16, a value between 2^53 and 2^57: the three computations
    agree. *)
Example formatUptime_double_large :
  Double.formatUptime (Double.of_Z 72057594037927952)
    = Some "20015998343868h 52m 32s" /\
  Rounded.formatUptime Rounded.nearest 72057594037927952
    = "20015998343868h 52m 32s" /\
  App.formatUptime 72057594037927952 = "20015998343868h 52m 32s".
Proof. vm_compute. repeat split. Qed.

(** An infinite uptime has no minutes and no seconds. *)
Example formatUptime_infinity :
  Double.formatUptime (S754_infinity false) = Some "Infinityh NaNm NaNs".
Proof. vm_compute. reflexivity. Qed.

(** The smallest negative value: its quotients round to [-0], which
    prints as "0", and its seconds are rounded down to -1. *)
Example formatUptime_smallest_negative :
  Double.formatUptime (S754_finite true 1 (-1074)) = Some "0h 0m -1s".
Proof. vm_compute. reflexivity. Qed.

(** C9, as the specification states it, fails on large numbers. The
    number of seconds 287063205461017184, between 2^57 and 2^58, is a
    binary64 value (it is 2^5 times a whole number of 53 bits) and a
    multiple of 3600 less 16; its division by 3600 is rounded up to the
    next whole number, so the hours shown are one more than the whole part
    of the quotient, and the three numbers shown add up to an hour more
    than the input. *)
Lemma formatUptime_parts_beyond_2_57 :
  ~ (forall s : spec_float,
       Double.nonnegative s = true ->
       exists h m sec : Z,
         Double.formatUptime s
           = Some (JS.Number_toString h +:+ "h " +:+
                   JS.Number_toString m +:+ "m " +:+
                   JS.Number_toString sec +:+ "s") /\
         h = Double.whole s / 3600 /\
         0 <= m <= 59 /\
         0 <= sec <= 59 /\
         3600 * h + 60 * m + sec = Double.whole s).
Proof.
  intros Hclaim.
  destruct (Hclaim (Double.of_Z 287063205461017184) eq_refl)
    as (h & m & sec & Htext & Hh & _).
  assert (Double.formatUptime (Double.of_Z 287063205461017184)
          = Some (uptime_text (79739779294727, 59, 44))) as Hshown
    by (vm_compute; reflexivity).
  rewrite Hshown in Htext. injection Htext as Htext.
  apply (uptime_text_inj (79739779294727, 59, 44) (h, m, sec)) in Htext.
  injection Htext as <- _ _.
  vm_compute in Hh. discriminate Hh.
Qed.

(** C9, amended. For a non-negative number of seconds [s] below 2^57 (a
    binary64 value: a whole number below 2^53 times a power of two), and
    with the two divisions rounded as binary64 divisions are, the
    formatter returns "<h>h <m>m <sec>s" with [h] the whole part of
    [s / 3600], [m] and [sec] between 0 and 59, and [3600 h + 60 m + sec]
    the whole part of [s]: minutes and seconds never reach 60. The
    rounding changes nothing there: the text is that of the exact
    computation. *)
Theorem formatUptime_parts (rnd : Q -> Q) (s : Q) :
  Rounded.binary64 rnd ->
  Rounded.below_2_57 s ->
  exists h m sec : Z,
    Rounded.formatUptime rnd s
      = JS.Number_toString h +:+ "h " +:+
        JS.Number_toString m +:+ "m " +:+
        JS.Number_toString sec +:+ "s" /\
    Rounded.formatUptime rnd s = App.formatUptime s /\
    h = Qfloor (s / 3600) /\
    0 <= m <= 59 /\
    0 <= sec <= 59 /\
    3600 * h + 60 * m + sec = Qfloor s.
Proof.
  intros Hrnd Hs.
  destruct (uptime_parts s (below_nonneg s Hs)) as [Hh [Hm Hsec]].
  exists (JS.Math_floor (s / 3600)), (JS.Math_floor (JS.rem s 3600 / 60)),
         (JS.Math_floor (JS.rem s 60)).
  rewrite (rounded_text rnd Hrnd s Hs).
  split; [reflexivity |]. split; [reflexivity |]. split; [reflexivity |].
  rewrite Hh, Hm, Hsec.
  generalize (Qfloor s). intros F.
  repeat split; Z.div_mod_to_equations; lia.
Qed.

Lemma formatUptime_parts_witness :
  exists h m sec : Z,
    Rounded.formatUptime Rounded.nearest (691199 # 8)
      = JS.Number_toString h +:+ "h " +:+
        JS.Number_toString m +:+ "m " +:+
        JS.Number_toString sec +:+ "s" /\
    Rounded.formatUptime Rounded.nearest (691199 # 8)
      = App.formatUptime (691199 # 8) /\
    h = Qfloor ((691199 # 8) / 3600) /\
    0 <= m <= 59 /\
    0 <= sec <= 59 /\
    3600 * h + 60 * m + sec = Qfloor (691199 # 8).
Proof.
  apply (formatUptime_parts Rounded.nearest (691199 # 8) nearest_binary64).
  exists 691199, (-3). split; [lia | split; [lia | reflexivity]].
Defined.

(* ===================================================================== *)
(** ** The refresh cycle *)
(* ===================================================================== *)

Section RefreshCycle.

Import Fetch App.

Lemma ok_spec {A} (r : Response A) :
  ok r = true <-> 200 <= Fetch.status r <= 299.
Proof. unfold ok. rewrite andb_true_iff, !Z.leb_le. tauto. Qed.

(** The setters a cycle starts with touch [loading] and [error] only. *)
Lemma fetchData_begin_spec (st : ViewState) :
  fetchData_begin st =
  (Normal tt,
   {| health := health st; info := info st; message := message st;
      loading := true; error := None; lastRefresh := lastRefresh st |}).
Proof. reflexivity. Qed.

Lemma fetchData_unfold (w : Cycle) (st : ViewState) :
  fetchData w st =
  try_catch_finally (fetchData_try w) fetchData_catch (setLoading false)
    (snd (fetchData_begin st)).
Proof. reflexivity. Qed.

(** A [try] block that throws: the handler's error is stored, the
    finally block clears [loading], nothing is thrown further. *)
Lemma cycle_after_throw (w : Cycle) (st st1 : ViewState) (err : JS.Thrown) :
  fetchData_try w (snd (fetchData_begin st)) = (Throw err, st1) ->
  fetchData w st =
  (Normal tt,
   {| health := health st1; info := info st1; message := message st1;
      loading := false; error := Some (shown_error err);
      lastRefresh := lastRefresh st1 |}).
Proof.
  intros Htry. rewrite fetchData_unfold. unfold try_catch_finally.
  rewrite Htry. reflexivity.
Qed.

Lemma cycle_after_normal (w : Cycle) (st st1 : ViewState) :
  fetchData_try w (snd (fetchData_begin st)) = (Normal tt, st1) ->
  fetchData w st =
  (Normal tt,
   {| health := health st1; info := info st1; message := message st1;
      loading := false; error := error st1;
      lastRefresh := lastRefresh st1 |}).
Proof.
  intros Htry. rewrite fetchData_unfold. unfold try_catch_finally.
  rewrite Htry. reflexivity.
Qed.

Lemma cycle_after_hang (w : Cycle) (st st1 : ViewState) :
  fetchData_try w (snd (fetchData_begin st)) = (Hang, st1) ->
  fetchData w st = (Hang, st1).
Proof.
  intros Htry. rewrite fetchData_unfold. unfold try_catch_finally.
  rewrite Htry. reflexivity.
Qed.

(** The [try] block writes the data cells only once nothing can fail any
    more: when it throws or hangs, the state is as it found it. *)
Lemma try_keeps_state_unless_normal (w : Cycle) (st st1 : ViewState)
    (c : Completion unit) :
  fetchData_try w st = (c, st1) -> c <> Normal tt -> st1 = st.
Proof.
  unfold fetchData_try, bind, await, throw, ret.
  destruct (responses w) as [[[healthRes infoRes] messageRes] | reason |];
    try (intros [= <- <-]; reflexivity).
  destruct (negb (ok healthRes) || negb (ok infoRes) || negb (ok messageRes));
    try (intros [= <- <-]; reflexivity).
  destruct (body healthRes); try (intros [= <- <-]; reflexivity).
  destruct (body infoRes); try (intros [= <- <-]; reflexivity).
  destruct (body messageRes); try (intros [= <- <-]; reflexivity).
  simpl. intros [= <- <-] Hc. exfalso. apply Hc. reflexivity.
Qed.

(** A response with a non-success status makes the [try] block throw the
    fixed error before any body is read. *)
Lemma try_bad_status (w : Cycle) (st : ViewState) healthRes infoRes messageRes :
  responses w = Fulfilled (healthRes, infoRes, messageRes) ->
  ok healthRes = false \/ ok infoRes = false \/ ok messageRes = false ->
  fetchData_try w st = (Throw (JS.ErrorObject failure_message), st).
Proof.
  intros Hres Hbad. unfold fetchData_try, bind, await. rewrite Hres.
  assert (negb (ok healthRes) || negb (ok infoRes) || negb (ok messageRes)
          = true) as ->.
  { destruct Hbad as [-> | [-> | ->]]; simpl;
      rewrite ?orb_true_r; reflexivity. }
  reflexivity.
Qed.

Lemma try_network_error (w : Cycle) (st : ViewState) (reason : JS.Thrown) :
  responses w = Rejected reason ->
  fetchData_try w st = (Throw reason, st).
Proof.
  intros Hres. unfold fetchData_try, bind, await. rewrite Hres. reflexivity.
Qed.

Lemma try_all_fine (w : Cycle) (st : ViewState)
    healthRes infoRes messageRes healthData infoData messageData :
  responses w = Fulfilled (healthRes, infoRes, messageRes) ->
  ok healthRes = true -> ok infoRes = true -> ok messageRes = true ->
  body healthRes = Fulfilled healthData ->
  body infoRes = Fulfilled infoData ->
  body messageRes = Fulfilled messageData ->
  fetchData_try w st =
  (Normal tt,
   {| health := Some healthData; info := Some infoData;
      message := messageData; loading := loading st; error := error st;
      lastRefresh := clock w |}).
Proof.
  intros Hres Hh Hi Hm Bh Bi Bm. unfold fetchData_try, bind, await.
  rewrite Hres, Hh, Hi, Hm, Bh, Bi, Bm. reflexivity.
Qed.

(** The [try] block returns nothing but [tt]. *)
Lemma completion_cases (c : Completion unit) :
  c = Normal tt \/ (exists err, c = Throw err) \/ c = Hang.
Proof. destruct c as [[] | err |]; eauto. Qed.

Lemma try_hangs_only_on_pending (w : Cycle) (st st1 : ViewState) :
  fetchData_try w st = (Hang, st1) -> all_settle w = false.
Proof.
  unfold fetchData_try, all_settle, bind, await, throw, ret.
  destruct (responses w) as [[[healthRes infoRes] messageRes] | reason |];
    try discriminate; try reflexivity.
  destruct (negb (ok healthRes) || negb (ok infoRes) || negb (ok messageRes));
    try discriminate.
  destruct (body healthRes); try discriminate; try reflexivity.
  destruct (body infoRes); try discriminate; try reflexivity.
  destruct (body messageRes); try discriminate; try reflexivity.
Qed.

End RefreshCycle.

(** C1. A cycle in which one of the three responses has a non-success
    status applies no partial update: health, info, message and the time of
    the last refresh keep their values, and the error is the fixed message
    "Failed to fetch data from backend". *)
Theorem fetchData_all_or_nothing (w : App.Cycle) (st : App.ViewState)
    (healthRes : Fetch.Response App.HealthData)
    (infoRes : Fetch.Response App.InfoData)
    (messageRes : Fetch.Response string) :
  App.responses w = Fetch.Fulfilled (healthRes, infoRes, messageRes) ->
  Fetch.ok healthRes = false \/ Fetch.ok infoRes = false \/
    Fetch.ok messageRes = false ->
  App.health (App.refreshed w st) = App.health st /\
  App.info (App.refreshed w st) = App.info st /\
  App.message (App.refreshed w st) = App.message st /\
  App.lastRefresh (App.refreshed w st) = App.lastRefresh st /\
  App.error (App.refreshed w st) = Some "Failed to fetch data from backend".
Proof.
  intros Hres Hbad. unfold App.refreshed.
  rewrite (cycle_after_throw w st _ _
             (try_bad_status w _ healthRes infoRes messageRes Hres Hbad)).
  repeat split.
Qed.

Lemma fetchData_all_or_nothing_witness :
  Fetch.ok (Samples.respond 500 Samples.info0) = false /\
  App.health (App.refreshed Samples.info_500 Samples.shown)
    = Some Samples.health0 /\
  App.info (App.refreshed Samples.info_500 Samples.shown)
    = Some Samples.info0 /\
  App.message (App.refreshed Samples.info_500 Samples.shown) = "hi" /\
  App.lastRefresh (App.refreshed Samples.info_500 Samples.shown)
    = 1704067200000 /\
  App.error (App.refreshed Samples.info_500 Samples.shown)
    = Some "Failed to fetch data from backend".
Proof.
  split; [reflexivity |].
  apply (fetchData_all_or_nothing Samples.info_500 Samples.shown
           (Samples.respond 200 Samples.health1)
           (Samples.respond 500 Samples.info0)
           (Samples.respond 200 "hi")).
  - reflexivity.
  - right. left. reflexivity.
Defined.

(** C2, as the specification states it, fails: the failing cycles do not
    all show one fixed string. A non-success status shows the fixed
    message, an unreachable backend shows the message of the network
    error. *)
Lemma shown_error_not_fixed :
  ~ (exists fixed : string,
       forall (w : App.Cycle) (st : App.ViewState),
         App.failing w st = true ->
         App.error (App.refreshed w st) = Some fixed).
Proof.
  intros [fixed Hfixed].
  pose proof (Hfixed Samples.info_500 Samples.shown eq_refl) as H1.
  pose proof (Hfixed Samples.network_down Samples.shown eq_refl) as H2.
  vm_compute in H1, H2. congruence.
Qed.

(** C2, amended. No cycle throws. A failing cycle ends normally and shows:
    the fixed message when one of the three responses has a non-success
    status; when [Promise.all] rejects, the message of the rejection
    reason; when the statuses are fine and reading a body rejects (the
    health body, else the info body, else the greeting), the message of
    that reason; and "Unknown error occurred" in place of the message
    whenever the reason is not an [Error]. *)
Theorem fetchData_failure_shown (w : App.Cycle) (st : App.ViewState) :
  let shows (reason : JS.Thrown) :=
    App.completion w st = App.Normal tt /\
    App.error (App.refreshed w st) =
      Some match reason with
           | JS.ErrorObject message => message
           | JS.NonError _ => "Unknown error occurred"
           end in
  (forall err : JS.Thrown, App.completion w st <> App.Throw err) /\
  (forall reason : JS.Thrown,
     App.responses w = Fetch.Rejected reason -> shows reason) /\
  (forall healthRes infoRes messageRes,
     App.responses w = Fetch.Fulfilled (healthRes, infoRes, messageRes) ->
     (Fetch.ok healthRes = false \/ Fetch.ok infoRes = false \/
        Fetch.ok messageRes = false ->
      shows (JS.ErrorObject "Failed to fetch data from backend")) /\
     (Fetch.ok healthRes = true -> Fetch.ok infoRes = true ->
      Fetch.ok messageRes = true ->
      forall reason : JS.Thrown,
        (Fetch.body healthRes = Fetch.Rejected reason -> shows reason) /\
        (forall healthData,
           Fetch.body healthRes = Fetch.Fulfilled healthData ->
           (Fetch.body infoRes = Fetch.Rejected reason -> shows reason) /\
           (forall infoData,
              Fetch.body infoRes = Fetch.Fulfilled infoData ->
              Fetch.body messageRes = Fetch.Rejected reason ->
              shows reason)))).
Proof.
  cbv zeta.
  assert (forall reason,
            App.fetchData_try w (snd (App.fetchData_begin st))
              = (App.Throw reason, snd (App.fetchData_begin st)) ->
            App.completion w st = App.Normal tt /\
            App.error (App.refreshed w st) =
              Some match reason with
                   | JS.ErrorObject message => message
                   | JS.NonError _ => "Unknown error occurred"
                   end) as Hthrown.
  { intros reason Htry. unfold App.completion, App.refreshed.
    rewrite (cycle_after_throw _ _ _ _ Htry). split; reflexivity. }
  split; [| split].
  - intros err. unfold App.completion.
    destruct (App.fetchData_try w (snd (App.fetchData_begin st)))
      as [c st1] eqn:Htry.
    destruct (completion_cases c) as [-> | [[e ->] | ->]].
    + rewrite (cycle_after_normal _ _ _ Htry). discriminate.
    + rewrite (cycle_after_throw _ _ _ _ Htry). discriminate.
    + rewrite (cycle_after_hang _ _ _ Htry). discriminate.
  - intros reason Hres. apply Hthrown. apply try_network_error. exact Hres.
  - intros healthRes infoRes messageRes Hres. split.
    + intros Hbad. apply (Hthrown (JS.ErrorObject App.failure_message)).
      apply (try_bad_status w _ healthRes infoRes messageRes Hres Hbad).
    + intros Hh Hi Hm reason.
      split; [| intros healthData Bh; split; [| intros infoData Bi]].
      * intros Bh. apply Hthrown.
        unfold App.fetchData_try, App.bind, App.await.
        rewrite Hres, Hh, Hi, Hm, Bh. reflexivity.
      * intros Bi. apply Hthrown.
        unfold App.fetchData_try, App.bind, App.await.
        rewrite Hres, Hh, Hi, Hm, Bh, Bi. reflexivity.
      * intros Bm. apply Hthrown.
        unfold App.fetchData_try, App.bind, App.await.
        rewrite Hres, Hh, Hi, Hm, Bh, Bi, Bm. reflexivity.
Qed.

Lemma fetchData_failure_shown_witness :
  (App.completion Samples.malformed_health Samples.shown = App.Normal tt /\
   App.error (App.refreshed Samples.malformed_health Samples.shown) =
     Some "JSON.parse: unexpected character at line 1 column 1 of the JSON data") /\
  (App.completion Samples.info_500 Samples.shown = App.Normal tt /\
   App.error (App.refreshed Samples.info_500 Samples.shown) =
     Some "Failed to fetch data from backend") /\
  (App.completion Samples.network_down Samples.shown = App.Normal tt /\
   App.error (App.refreshed Samples.network_down Samples.shown) =
     Some "Failed to fetch").
Proof.
  split; [| split].
  - apply (proj1
             (proj2 (proj2 (proj2
                (fetchData_failure_shown Samples.malformed_health
                   Samples.shown)) _ _ _ eq_refl)
                eq_refl eq_refl eq_refl
                (JS.ErrorObject
                   "JSON.parse: unexpected character at line 1 column 1 of the JSON data"))).
    reflexivity.
  - apply (proj1 (proj2 (proj2
             (fetchData_failure_shown Samples.info_500 Samples.shown))
             _ _ _ eq_refl)).
    right. left. reflexivity.
  - apply (proj1 (proj2
             (fetchData_failure_shown Samples.network_down Samples.shown))
             (JS.ErrorObject "Failed to fetch")).
    reflexivity.
Defined.

Section OverlapFacts.

Import Fetch App.

(** A cycle taken through its steps with nothing in between is the cycle
    [fetchData] describes: it leaves the same state, and it is over
    exactly when [fetchData] ends. *)
Lemma alone_is_fetchData (w : Cycle) (st : ViewState) :
  snd (Overlap.alone w st) = refreshed w st /\
  (fst (Overlap.alone w st) = Overlap.Over <-> completion w st = Normal tt).
Proof.
  unfold Overlap.alone, Overlap.finish, Overlap.resume, Overlap.fails,
    Overlap.stores, refreshed, completion, fetchData, fetchData_try,
    fetchData_catch, try_catch_finally, fetchData_begin, bind, await,
    throw, ret.
  cbn [Overlap.cycle Overlap.point].
  destruct (responses w) as [[[healthRes infoRes] messageRes] | reason |];
    [ destruct (ok healthRes), (ok infoRes), (ok messageRes);
      [ destruct (body healthRes), (body infoRes), (body messageRes)
      | .. ]
    | | ];
    cbn; (split; [reflexivity |]); split; intros H;
    first [reflexivity | discriminate H].
Qed.

(** The last step of a cycle whose three bodies were read: the data cells
    and [loading] are written, [error] is not. *)
Lemma final_step (sys : Overlap.System) (n : nat) (w : Cycle)
    healthRes infoRes messageRes healthData infoData messageData :
  responses w = Fulfilled (healthRes, infoRes, messageRes) ->
  body healthRes = Fulfilled healthData ->
  body infoRes = Fulfilled infoData ->
  body messageRes = Fulfilled messageData ->
  Overlap.tasks sys !! n
    = Some {| Overlap.cycle := w; Overlap.point := Overlap.AtMessageText |} ->
  Overlap.step (Overlap.Resume n) sys =
  Some {| Overlap.view :=
            {| health := Some healthData; info := Some infoData;
               message := messageData; loading := false;
               error := error (Overlap.view sys);
               lastRefresh := clock w |};
          Overlap.tasks :=
            <[n := {| Overlap.cycle := w; Overlap.point := Overlap.Over |}]>
              (Overlap.tasks sys) |}.
Proof.
  intros Hres Bh Bi Bm Htask. unfold Overlap.step. rewrite Htask.
  unfold Overlap.resume. cbn [Overlap.cycle Overlap.point].
  rewrite Hres, Bh, Bi, Bm. reflexivity.
Qed.

(** The steps before the last one, on the way of a cycle that succeeds,
    write nothing. *)
Lemma quiet_step (sys : Overlap.System) (n : nat) (w : Cycle)
    (at_ : Overlap.Point)
    healthRes infoRes messageRes healthData infoData :
  responses w = Fulfilled (healthRes, infoRes, messageRes) ->
  ok healthRes = true -> ok infoRes = true -> ok messageRes = true ->
  body healthRes = Fulfilled healthData ->
  body infoRes = Fulfilled infoData ->
  at_ = Overlap.AtPromiseAll \/ at_ = Overlap.AtHealthJson \/
    at_ = Overlap.AtInfoJson ->
  Overlap.tasks sys !! n = Some {| Overlap.cycle := w; Overlap.point := at_ |} ->
  exists next : Overlap.Point,
    Overlap.step (Overlap.Resume n) sys =
    Some {| Overlap.view := Overlap.view sys;
            Overlap.tasks :=
              <[n := {| Overlap.cycle := w; Overlap.point := next |}]>
                (Overlap.tasks sys) |}.
Proof.
  intros Hres Hh Hi Hm Bh Bi Hat Htask. unfold Overlap.step. rewrite Htask.
  unfold Overlap.resume. cbn [Overlap.cycle Overlap.point].
  rewrite Hres, Hh, Hi, Hm, Bh, Bi.
  destruct Hat as [-> | [-> | ->]]; cbn; eauto.
Qed.

End OverlapFacts.

(** C3, as the specification states it, fails: a cycle whose three
    responses succeed and parse can end with an error set. The cycle
    started on mount is rejected only after the timer has started the next
    one; that next cycle has already cleared the error, and its success
    path does not clear it again. *)
Lemma success_with_error_set :
  ~ (forall (evs : list Overlap.Event) (n : nat) (mounted : Z)
            (sys : Overlap.System) (w : App.Cycle),
       Overlap.exec (evs ++ [Overlap.Resume n]) (Overlap.boot mounted)
         = Some sys ->
       Overlap.tasks sys !! n
         = Some {| Overlap.cycle := w; Overlap.point := Overlap.Over |} ->
       Overlap.succeeds w = true ->
       App.loading (Overlap.view sys) = false /\
       App.lastRefresh (Overlap.view sys) = App.clock w /\
       App.error (Overlap.view sys) = None).
Proof.
  intros Hclaim.
  specialize (Hclaim
    [Overlap.Start Samples.network_down; Overlap.Start Samples.all_fine;
     Overlap.Resume 0; Overlap.Resume 1; Overlap.Resume 1; Overlap.Resume 1]
    1%nat 0 _ Samples.all_fine eq_refl eq_refl eq_refl).
  destruct Hclaim as [_ [_ Herror]]. discriminate Herror.
Qed.

(** C3, amended. A cycle whose three responses succeed and parse, left
    alone from start to end, ends normally with health, info and message
    replaced by the fetched values, the time of the last refresh set to
    the current instant, [loading] false and the error absent. When other
    cycles run between its steps, its last step still writes those data
    cells and [loading] together, whatever the state is by then, and its
    steps before that write nothing; [error] is cleared when the cycle
    starts and is not written by any of these steps, so it ends as the
    other cycles left it. *)
Theorem fetchData_success (w : App.Cycle)
    (healthRes : Fetch.Response App.HealthData)
    (infoRes : Fetch.Response App.InfoData)
    (messageRes : Fetch.Response string)
    (healthData : App.HealthData) (infoData : App.InfoData)
    (messageData : string) :
  App.responses w = Fetch.Fulfilled (healthRes, infoRes, messageRes) ->
  Fetch.ok healthRes = true ->
  Fetch.ok infoRes = true ->
  Fetch.ok messageRes = true ->
  Fetch.body healthRes = Fetch.Fulfilled healthData ->
  Fetch.body infoRes = Fetch.Fulfilled infoData ->
  Fetch.body messageRes = Fetch.Fulfilled messageData ->
  (forall st : App.ViewState,
     App.completion w st = App.Normal tt /\
     App.refreshed w st =
       {| App.health := Some healthData; App.info := Some infoData;
          App.message := messageData; App.loading := false;
          App.error := None; App.lastRefresh := App.clock w |} /\
     Overlap.alone w st = (Overlap.Over, App.refreshed w st)) /\
  (forall (sys : Overlap.System) (w' : App.Cycle),
     exists sys' : Overlap.System,
       Overlap.step (Overlap.Start w') sys = Some sys' /\
       App.error (Overlap.view sys') = None) /\
  (forall (sys : Overlap.System) (n : nat),
     Overlap.tasks sys !! n
       = Some {| Overlap.cycle := w;
                 Overlap.point := Overlap.AtMessageText |} ->
     Overlap.step (Overlap.Resume n) sys =
     Some {| Overlap.view :=
               {| App.health := Some healthData; App.info := Some infoData;
                  App.message := messageData; App.loading := false;
                  App.error := App.error (Overlap.view sys);
                  App.lastRefresh := App.clock w |};
             Overlap.tasks :=
               <[n := {| Overlap.cycle := w;
                         Overlap.point := Overlap.Over |}]>
                 (Overlap.tasks sys) |}) /\
  (forall (sys : Overlap.System) (n : nat) (at_ : Overlap.Point),
     at_ = Overlap.AtPromiseAll \/ at_ = Overlap.AtHealthJson \/
       at_ = Overlap.AtInfoJson ->
     Overlap.tasks sys !! n
       = Some {| Overlap.cycle := w; Overlap.point := at_ |} ->
     exists next : Overlap.Point,
       Overlap.step (Overlap.Resume n) sys =
       Some {| Overlap.view := Overlap.view sys;
               Overlap.tasks :=
                 <[n := {| Overlap.cycle := w; Overlap.point := next |}]>
                   (Overlap.tasks sys) |}).
Proof.
  intros Hres Hh Hi Hm Bh Bi Bm. split; [| split; [| split]].
  - intros st.
    assert (App.fetchData w st =
            (App.Normal tt,
             {| App.health := Some healthData; App.info := Some infoData;
                App.message := messageData; App.loading := false;
                App.error := None; App.lastRefresh := App.clock w |}))
      as Hrun.
    { rewrite (cycle_after_normal w st _
                 (try_all_fine w _ _ _ _ _ _ _ Hres Hh Hi Hm Bh Bi Bm)).
      reflexivity. }
    destruct (alone_is_fetchData w st) as [Hstate Hover].
    unfold App.completion, App.refreshed in *. rewrite Hrun in *.
    split; [reflexivity |]. split; [reflexivity |].
    destruct (Overlap.alone w st) as [at_ st']. cbn in *.
    rewrite Hstate, (proj2 Hover eq_refl). reflexivity.
  - intros sys w'. eexists. split; reflexivity.
  - intros sys n Htask.
    apply (final_step sys n w _ _ _ _ _ _ Hres Bh Bi Bm Htask).
  - intros sys n at_ Hat Htask.
    apply (quiet_step sys n w at_ _ _ _ _ _ Hres Hh Hi Hm Bh Bi Hat Htask).
Qed.

Lemma fetchData_success_witness :
  (App.completion Samples.all_fine (App.initial 1704067199000) = App.Normal tt /\
   App.refreshed Samples.all_fine (App.initial 1704067199000) =
     {| App.health := Some Samples.health0; App.info := Some Samples.info0;
        App.message := "hi"; App.loading := false;
        App.error := None; App.lastRefresh := 1704067200000 |}) /\
  option_map Overlap.view
    (Overlap.exec Overlap.late_failure (Overlap.boot 1704067199000)) =
  Some {| App.health := Some Samples.health0; App.info := Some Samples.info0;
          App.message := "hi"; App.loading := false;
          App.error := Some "Failed to fetch";
          App.lastRefresh := 1704067200000 |}.
Proof.
  pose proof (fetchData_success Samples.all_fine
                (Samples.respond 200 Samples.health0)
                (Samples.respond 200 Samples.info0)
                (Samples.respond 200 "hi")
                Samples.health0 Samples.info0 "hi"
                eq_refl eq_refl eq_refl eq_refl eq_refl eq_refl eq_refl)
    as [Halone [_ [Hlast _]]].
  split.
  - destruct (Halone (App.initial 1704067199000)) as [Hc [Hr _]].
    split; [exact Hc | exact Hr].
  - change Overlap.late_failure
      with ([Overlap.Start Samples.network_down;
             Overlap.Start Samples.all_fine;
             Overlap.Resume 0; Overlap.Resume 1; Overlap.Resume 1;
             Overlap.Resume 1] ++ [Overlap.Resume 1]).
    destruct (Overlap.exec
                [Overlap.Start Samples.network_down;
                 Overlap.Start Samples.all_fine;
                 Overlap.Resume 0; Overlap.Resume 1; Overlap.Resume 1;
                 Overlap.Resume 1] (Overlap.boot 1704067199000))
      as [sys |] eqn:Hbefore; [| discriminate Hbefore].
    assert (Overlap.exec
              ([Overlap.Start Samples.network_down;
                Overlap.Start Samples.all_fine;
                Overlap.Resume 0; Overlap.Resume 1; Overlap.Resume 1;
                Overlap.Resume 1] ++ [Overlap.Resume 1])
              (Overlap.boot 1704067199000)
            = Overlap.step (Overlap.Resume 1) sys) as ->.
    { injection Hbefore as <-. reflexivity. }
    rewrite (Hlast sys 1%nat); [| injection Hbefore as <-; reflexivity].
    injection Hbefore as <-. reflexivity.
Defined.

(** C4. Every cycle begins by setting [loading] and clearing the error,
    and runs the rest from that state; every cycle that ends, ends with
    [loading] false; a cycle whose [try] block throws does end, with
    [loading] false; and a cycle ends whenever none of its promises stays
    pending. *)
Theorem fetchData_loading (w : App.Cycle) (st : App.ViewState) :
  (App.loading (snd (App.fetchData_begin st)) = true /\
   App.error (snd (App.fetchData_begin st)) = None /\
   App.fetchData w st =
     App.try_catch_finally (App.fetchData_try w) App.fetchData_catch
       (App.setLoading false) (snd (App.fetchData_begin st))) /\
  (App.completion w st = App.Normal tt ->
   App.loading (App.refreshed w st) = false) /\
  (App.failing w st = true ->
   App.completion w st = App.Normal tt /\
   App.loading (App.refreshed w st) = false) /\
  (App.all_settle w = true -> App.completion w st = App.Normal tt).
Proof.
  split; [repeat split |].
  unfold App.completion, App.refreshed, App.failing.
  destruct (App.fetchData_try w (snd (App.fetchData_begin st)))
    as [c st1] eqn:Htry.
  destruct (completion_cases c) as [-> | [[e ->] | ->]].
  - rewrite (cycle_after_normal _ _ _ Htry). simpl.
    repeat split; discriminate.
  - rewrite (cycle_after_throw _ _ _ _ Htry). repeat split.
  - rewrite (cycle_after_hang _ _ _ Htry). simpl.
    repeat split; try discriminate.
    rewrite (try_hangs_only_on_pending _ _ _ Htry). discriminate.
Qed.

Lemma fetchData_loading_witness :
  App.loading (App.refreshed Samples.all_fine Samples.shown) = false /\
  App.loading (App.refreshed Samples.network_down Samples.shown) = false.
Proof.
  split.
  - apply (proj1 (proj2 (fetchData_loading Samples.all_fine Samples.shown))).
    apply (proj2 (proj2 (proj2
             (fetchData_loading Samples.all_fine Samples.shown)))).
    reflexivity.
  - apply (proj1 (proj2 (proj2
             (fetchData_loading Samples.network_down Samples.shown)))).
    reflexivity.
Defined.

(** A request that never settles leaves the cycle unfinished, with
    [loading] still set. *)
Example hung_cycle_keeps_loading :
  App.fetchData Samples.hung Samples.shown =
  (App.Hang,
   {| App.health := Some Samples.health0; App.info := Some Samples.info0;
      App.message := "hi"; App.loading := true; App.error := None;
      App.lastRefresh := 1704067200000 |}).
Proof. reflexivity. Qed.

(** A thrown value that is not an [Error]. *)
Example non_error_thrown :
  App.error
    (App.refreshed
       {| App.responses := Fetch.Rejected (JS.NonError "aborted");
          App.clock := 0 |}
       Samples.shown)
  = Some "Unknown error occurred".
Proof. reflexivity. Qed.

(** An error left by a failed cycle is cleared by the next successful
    one. *)
Example error_then_recovery :
  App.error
    (App.refreshed Samples.all_fine
       (App.refreshed Samples.network_down Samples.shown))
  = None.
Proof. reflexivity. Qed.

(* ===================================================================== *)
(** ** Further properties of the refresh cycle *)
(* ===================================================================== *)

Section CycleFacts.

Import Fetch App.

(** A view state is its six cells. *)
Lemma ViewState_eta (st : ViewState) :
  {| health := health st; info := info st; message := message st;
     loading := loading st; error := error st;
     lastRefresh := lastRefresh st |} = st.
Proof. destruct st. reflexivity. Qed.

(** What a failing cycle does, whatever made it fail. *)
Lemma failing_cycle (w : Cycle) (st : ViewState) :
  failing w st = true ->
  exists err : JS.Thrown,
    fetchData_try w (snd (fetchData_begin st))
      = (Throw err, snd (fetchData_begin st)) /\
    fetchData w st =
    (Normal tt,
     {| health := health st; info := info st; message := message st;
        loading := false; error := Some (shown_error err);
        lastRefresh := lastRefresh st |}).
Proof.
  unfold failing. intros Hfail.
  destruct (fetchData_try w (snd (fetchData_begin st))) as [c st1] eqn:Htry.
  destruct c as [u | err |]; try discriminate.
  assert (st1 = snd (fetchData_begin st)) as ->
    by (apply (try_keeps_state_unless_normal _ _ _ _ Htry); discriminate).
  exists err. split; [reflexivity |].
  rewrite (cycle_after_throw _ _ _ _ Htry). reflexivity.
Qed.

(** What a cycle that does not come back leaves. *)
Lemma hung_cycle (w : Cycle) (st : ViewState) :
  fst (fetchData w st) = Hang ->
  fetchData w st =
  (Hang,
   {| health := health st; info := info st; message := message st;
      loading := true; error := None; lastRefresh := lastRefresh st |}).
Proof.
  intros Hhang.
  destruct (fetchData_try w (snd (fetchData_begin st))) as [c st1] eqn:Htry.
  destruct (completion_cases c) as [-> | [[e ->] | ->]].
  - rewrite (cycle_after_normal _ _ _ Htry) in Hhang. discriminate.
  - rewrite (cycle_after_throw _ _ _ _ Htry) in Hhang. discriminate.
  - rewrite (cycle_after_hang _ _ _ Htry).
    rewrite (try_keeps_state_unless_normal _ _ _ _ Htry); [| discriminate].
    reflexivity.
Qed.

(** The data cells after a cycle: what the cycle fetched, or what was
    there before. *)
Lemma cycle_data (w : Cycle) (st : ViewState) :
  Session.data (refreshed w st) =
  match Session.fetched w with
  | Some d => d
  | None => Session.data st
  end.
Proof.
  unfold Session.data, Session.fetched, refreshed, fetchData, fetchData_try,
    try_catch_finally, fetchData_begin, bind, await, throw, ret.
  destruct (responses w) as [[[healthRes infoRes] messageRes] | reason |];
    try reflexivity.
  destruct (ok healthRes), (ok infoRes), (ok messageRes); try reflexivity.
  destruct (body healthRes), (body infoRes), (body messageRes);
    reflexivity.
Qed.

(** Whether a cycle run in one piece ends, and what it leaves in [error]
    and [loading], does not depend on the state it starts from. *)
Lemma verdict_of_responses (w : Cycle) (st1 st2 : ViewState) :
  completion w st1 = completion w st2 /\
  error (refreshed w st1) = error (refreshed w st2) /\
  loading (refreshed w st1) = loading (refreshed w st2).
Proof.
  unfold completion, refreshed, fetchData, fetchData_try,
    try_catch_finally, fetchData_begin, bind, await, throw, ret.
  destruct (responses w) as [[[healthRes infoRes] messageRes] | reason |];
    try (repeat split; reflexivity).
  destruct (ok healthRes), (ok infoRes), (ok messageRes);
    try (repeat split; reflexivity).
  destruct (body healthRes), (body infoRes), (body messageRes);
    repeat split; reflexivity.
Qed.

(** A cycle that ends, ends with [loading] false. *)
Lemma ended_cycle (w : Cycle) (st : ViewState) :
  completion w st <> Hang -> loading (refreshed w st) = false.
Proof.
  unfold completion, refreshed. intros Hends.
  destruct (fetchData_try w (snd (fetchData_begin st))) as [c st1] eqn:Htry.
  destruct (completion_cases c) as [-> | [[e ->] | ->]].
  - rewrite (cycle_after_normal _ _ _ Htry). reflexivity.
  - rewrite (cycle_after_throw _ _ _ _ Htry). reflexivity.
  - rewrite (cycle_after_hang _ _ _ Htry) in Hends. contradiction.
Qed.

End CycleFacts.

(** X1. A failing cycle, whatever the failure (a non-success status, a
    rejected request, a body that cannot be read), ends normally with
    [loading] false and an error stored, and leaves health, info, message
    and the time of the last refresh exactly as they were. *)
Theorem failing_cycle_keeps_data (w : App.Cycle) (st : App.ViewState) :
  App.failing w st = true ->
  App.completion w st = App.Normal tt /\
  Session.data (App.refreshed w st) = Session.data st /\
  App.loading (App.refreshed w st) = false /\
  App.error (App.refreshed w st) <> None.
Proof.
  intros Hfail. destruct (failing_cycle w st Hfail) as [err [_ Hrun]].
  unfold App.completion, App.refreshed. rewrite Hrun.
  repeat split. discriminate.
Qed.

Lemma failing_cycle_keeps_data_witness :
  App.completion Samples.malformed_health Samples.shown = App.Normal tt /\
  Session.data (App.refreshed Samples.malformed_health Samples.shown)
    = Session.data Samples.shown /\
  App.loading (App.refreshed Samples.malformed_health Samples.shown) = false /\
  App.error (App.refreshed Samples.malformed_health Samples.shown) <> None.
Proof.
  apply (failing_cycle_keeps_data Samples.malformed_health Samples.shown).
  reflexivity.
Defined.

(** X2. A cycle that never comes back (a request or a body read that never
    settles) leaves the data as they were, [loading] set, and the error
    cleared: an error shown before the cycle is gone, and nothing takes
    its place. *)
Theorem hung_cycle_state (w : App.Cycle) (st : App.ViewState) :
  App.completion w st = App.Hang ->
  App.refreshed w st =
  {| App.health := App.health st; App.info := App.info st;
     App.message := App.message st; App.loading := true;
     App.error := None; App.lastRefresh := App.lastRefresh st |}.
Proof.
  intros Hhang. unfold App.refreshed.
  rewrite (hung_cycle w st Hhang). reflexivity.
Qed.

Lemma hung_cycle_state_witness :
  App.refreshed Samples.hung
    (App.refreshed Samples.network_down Samples.shown) =
  {| App.health := Some Samples.health0; App.info := Some Samples.info0;
     App.message := "hi"; App.loading := true;
     App.error := None; App.lastRefresh := 1704067200000 |}.
Proof.
  apply (hung_cycle_state Samples.hung
           (App.refreshed Samples.network_down Samples.shown)).
  reflexivity.
Defined.

(** X3. The status check comes before any body is read: when one of the
    three responses has a non-success status the cycle ends, with
    [loading] false, even if reading the bodies would never settle. *)
Theorem bad_status_ends_cycle (w : App.Cycle) (st : App.ViewState)
    (healthRes : Fetch.Response App.HealthData)
    (infoRes : Fetch.Response App.InfoData)
    (messageRes : Fetch.Response string) :
  App.responses w = Fetch.Fulfilled (healthRes, infoRes, messageRes) ->
  Fetch.ok healthRes = false \/ Fetch.ok infoRes = false \/
    Fetch.ok messageRes = false ->
  App.completion w st = App.Normal tt /\
  App.loading (App.refreshed w st) = false.
Proof.
  intros Hres Hbad. unfold App.completion, App.refreshed.
  rewrite (cycle_after_throw w st _ _
             (try_bad_status w _ healthRes infoRes messageRes Hres Hbad)).
  split; reflexivity.
Qed.

(** X5. Running a cycle with the same outcome twice in a row gives the
    state the first run gave. *)
Theorem refreshed_idempotent (w : App.Cycle) (st : App.ViewState) :
  App.refreshed w (App.refreshed w st) = App.refreshed w st.
Proof.
  unfold App.refreshed, App.fetchData, App.fetchData_try,
    App.try_catch_finally, App.fetchData_begin, App.bind, App.await,
    App.throw, App.ret.
  destruct (App.responses w) as [[[healthRes infoRes] messageRes] | reason |];
    try reflexivity.
  destruct (Fetch.ok healthRes), (Fetch.ok infoRes), (Fetch.ok messageRes);
    try reflexivity.
  destruct (Fetch.body healthRes), (Fetch.body infoRes),
    (Fetch.body messageRes); reflexivity.
Qed.

Lemma bad_status_ends_cycle_witness :
  App.completion MoreSamples.info_500_no_body Samples.shown = App.Normal tt /\
  App.loading (App.refreshed MoreSamples.info_500_no_body Samples.shown)
    = false.
Proof.
  apply (bad_status_ends_cycle MoreSamples.info_500_no_body Samples.shown
           {| Fetch.status := 200; Fetch.body := Fetch.Pending |}
           {| Fetch.status := 500; Fetch.body := Fetch.Pending |}
           {| Fetch.status := 200; Fetch.body := Fetch.Pending |}).
  - reflexivity.
  - right. left. reflexivity.
Defined.

(* ===================================================================== *)
(** ** Successive cycles *)
(* ===================================================================== *)

Section SessionFacts.

Import Fetch App.

Lemma run_app (ws1 ws2 : list Cycle) (st : ViewState) :
  Session.run (ws1 ++ ws2) st = Session.run ws2 (Session.run ws1 st).
Proof. unfold Session.run. apply fold_left_app. Qed.

Lemma run_data (ws : list Cycle) (st : ViewState) :
  Session.data (Session.run ws st)
  = Session.last_fetched ws (Session.data st).
Proof.
  revert st. induction ws as [| w ws IH]; intros st.
  - reflexivity.
  - change (Session.run (w :: ws) st)
      with (Session.run ws (refreshed w st)).
    rewrite IH, cycle_data. reflexivity.
Qed.

Lemma last_fetched_none (ws : list Cycle) start :
  Forall (fun w => Session.fetched w = None) ws ->
  Session.last_fetched ws start = start.
Proof.
  revert start. induction ws as [| w ws IH]; intros start Hall.
  - reflexivity.
  - inversion Hall as [| ? ? Hw Hrest]; subst. simpl. rewrite Hw.
    apply IH. exact Hrest.
Qed.

End SessionFacts.

(** X4. When the cycles run one after the other, none started before the
    one before it has ended or has stopped for good, what a cycle leaves
    in [error] and [loading], and whether it ends, depends on that cycle
    alone, not on the cycles before it nor on the state they started from:
    no error of an earlier cycle survives a later one. (Cycles that
    overlap are another matter: there a cycle can end with the error of
    another one.) *)
Theorem cycle_verdict_is_its_own (ws1 ws2 : list App.Cycle) (w : App.Cycle)
    (st1 st2 : App.ViewState) :
  App.completion w (Session.run ws1 st1)
    = App.completion w (Session.run ws2 st2) /\
  App.error (Session.run (ws1 ++ [w]) st1)
    = App.error (Session.run (ws2 ++ [w]) st2) /\
  App.loading (Session.run (ws1 ++ [w]) st1)
    = App.loading (Session.run (ws2 ++ [w]) st2).
Proof.
  rewrite !run_app.
  apply (verdict_of_responses w (Session.run ws1 st1) (Session.run ws2 st2)).
Qed.

(** X6. After any sequence of cycles, failing, hanging or succeeding in
    any order, the four data cells hold exactly what the last successful
    cycle of the sequence fetched (all four from that one cycle), and what
    they held at the start when no cycle succeeded. *)
Theorem session_shows_last_success (ws : list App.Cycle)
    (st : App.ViewState) :
  Session.data (Session.run ws st)
  = Session.last_fetched ws (Session.data st).
Proof. apply run_data. Qed.

(* ===================================================================== *)
(** ** What the user sees *)
(* ===================================================================== *)

Section ScreenFacts.

Import Fetch App.

Variable timestampText : string -> string.
Variable instantText : Z -> string.

(** The three cards show the data cells and [loading], nothing else. *)
Lemma cards_of_data (st1 st2 : ViewState) :
  Session.data st1 = Session.data st2 ->
  loading st1 = loading st2 ->
  View.healthCard (View.render timestampText instantText st1)
    = View.healthCard (View.render timestampText instantText st2) /\
  View.infoCard (View.render timestampText instantText st1)
    = View.infoCard (View.render timestampText instantText st2) /\
  View.messageCard (View.render timestampText instantText st1)
    = View.messageCard (View.render timestampText instantText st2).
Proof.
  unfold Session.data. intros [= Hh Hi Hm Ht] Hl.
  unfold View.render, View.render_health, View.render_info,
    View.render_message, View.isConnected. cbn [View.healthCard
    View.infoCard View.messageCard].
  rewrite Hh, Hi, Hm, Ht, Hl. repeat split.
Qed.

End ScreenFacts.

(** X8. Once a cycle has run its first two statements, and until a cycle
    ends, the page shows the three spinners and no error banner, and the
    refresh button is disabled and reads "Refreshing...", whatever was
    shown before. A cycle that never comes back leaves the page so; the
    page does not stay so: the next cycle that ends (the timer starts one
    every 30 seconds) enables the button again. *)
Theorem screen_in_flight (timestampText : string -> string)
    (instantText : Z -> string) (w : App.Cycle) (st : App.ViewState) :
  let spinners :=
    {| View.banner := None;
       View.healthCard := View.HealthChecking;
       View.infoCard := View.InfoSpinner;
       View.messageCard := View.MessageSpinner;
       View.refreshDisabled := true;
       View.refreshLabel := "Refreshing..." |} in
  View.render timestampText instantText (snd (App.fetchData_begin st))
    = spinners /\
  (App.completion w st = App.Hang ->
   View.render timestampText instantText (App.refreshed w st) = spinners) /\
  (forall w' : App.Cycle,
     App.completion w' (App.refreshed w st) <> App.Hang ->
     let page :=
       View.render timestampText instantText
         (App.refreshed w' (App.refreshed w st)) in
     View.refreshDisabled page = false /\
     View.refreshLabel page = "🔄 Refresh Data").
Proof.
  cbv zeta. split; [reflexivity |]. split.
  - intros Hhang. unfold App.refreshed. rewrite (hung_cycle w st Hhang).
    reflexivity.
  - intros w' Hends. unfold View.render. cbn [View.refreshDisabled
      View.refreshLabel].
    rewrite (ended_cycle w' _ Hends). split; reflexivity.
Qed.

Lemma screen_in_flight_witness :
  View.render (fun s => s) (fun _ => "12:00:00")
    (App.refreshed Samples.hung Samples.shown) =
  {| View.banner := None;
     View.healthCard := View.HealthChecking;
     View.infoCard := View.InfoSpinner;
     View.messageCard := View.MessageSpinner;
     View.refreshDisabled := true;
     View.refreshLabel := "Refreshing..." |} /\
  View.refreshDisabled
    (View.render (fun s => s) (fun _ => "12:00:00")
       (App.refreshed Samples.network_down
          (App.refreshed Samples.hung Samples.shown))) = false.
Proof.
  pose proof (screen_in_flight (fun s => s) (fun _ => "12:00:00")
                Samples.hung Samples.shown) as [_ [Hhung Hnext]].
  split.
  - apply Hhung. reflexivity.
  - apply (Hnext Samples.network_down). discriminate.
Defined.

(** X9. After a failing cycle the three cards show what they showed before
    the cycle (stale data stay on display, and a "Connected" badge stays
    "Connected" although the backend just failed), the refresh button is
    enabled again, and the banner shows the message of the thrown error
    after a warning sign; when that message is empty there is no banner at
    all. *)
Theorem screen_after_failure (timestampText : string -> string)
    (instantText : Z -> string) (w : App.Cycle) (st : App.ViewState) :
  App.failing w st = true ->
  App.loading st = false ->
  let before := View.render timestampText instantText st in
  let after := View.render timestampText instantText (App.refreshed w st) in
  View.healthCard after = View.healthCard before /\
  View.infoCard after = View.infoCard before /\
  View.messageCard after = View.messageCard before /\
  View.refreshDisabled after = false /\
  View.refreshLabel after = "🔄 Refresh Data" /\
  exists err : JS.Thrown,
    fst (App.fetchData_try w (snd (App.fetchData_begin st))) = App.Throw err /\
    View.banner after =
      match App.shown_error err with
      | EmptyString => None
      | String c s => Some ("⚠️ " +:+ String c s)
      end.
Proof.
  intros Hfail Hidle. cbv zeta.
  destruct (failing_cycle w st Hfail) as [err [Htry Hrun]].
  assert (Session.data (App.refreshed w st) = Session.data st) as Hdata
    by (unfold App.refreshed; rewrite Hrun; reflexivity).
  assert (App.loading (App.refreshed w st) = App.loading st) as Hload
    by (unfold App.refreshed; rewrite Hrun, Hidle; reflexivity).
  destruct (cards_of_data timestampText instantText _ _ Hdata Hload)
    as [Hh [Hi Hm]].
  split; [exact Hh |]. split; [exact Hi |]. split; [exact Hm |].
  unfold App.refreshed. rewrite Hrun. split; [reflexivity |].
  split; [reflexivity |].
  exists err. rewrite Htry. split; [reflexivity |].
  cbn. unfold View.render_banner. cbn.
  destruct (App.shown_error err); reflexivity.
Qed.

Lemma screen_after_failure_witness :
  View.healthCard
    (View.render (fun s => s) (fun _ => "12:00:00")
       (App.refreshed Samples.network_down Samples.shown))
  = View.HealthStatus "Connected" (Some ("0h 0m 5s", "2024-01-01T00:00:00Z"))
  /\
  View.banner
    (View.render (fun s => s) (fun _ => "12:00:00")
       (App.refreshed MoreSamples.silent_failure Samples.shown))
  = None.
Proof.
  split.
  - destruct (screen_after_failure (fun s => s) (fun _ => "12:00:00")
                Samples.network_down Samples.shown eq_refl eq_refl)
      as [Hh _].
    rewrite Hh. vm_compute. reflexivity.
  - destruct (screen_after_failure (fun s => s) (fun _ => "12:00:00")
                MoreSamples.silent_failure Samples.shown eq_refl eq_refl)
      as [_ [_ [_ [_ [_ [err [Herr Hbanner]]]]]]].
    rewrite Hbanner. injection Herr as <-. reflexivity.
Defined.



(** X11. As long as no cycle has succeeded since mounting, a page that is
    not loading reads "Disconnected" without uptime, "No data available"
    and "No message received". *)
Theorem screen_before_first_success (timestampText : string -> string)
    (instantText : Z -> string) (ws : list App.Cycle) (mounted : Z) :
  Forall (fun w => Session.fetched w = None) ws ->
  App.loading (Session.run ws (App.initial mounted)) = false ->
  let page :=
    View.render timestampText instantText
      (Session.run ws (App.initial mounted)) in
  View.healthCard page = View.HealthStatus "Disconnected" None /\
  View.infoCard page = View.InfoEmpty /\
  View.messageCard page = View.MessageEmpty.
Proof.
  intros Hnone Hidle. cbv zeta.
  pose proof (run_data ws (App.initial mounted)) as Hdata.
  rewrite (last_fetched_none ws _ Hnone) in Hdata.
  injection Hdata as Hh Hi Hm Ht.
  unfold View.render, View.render_health, View.render_info,
    View.render_message, View.isConnected.
  cbn [View.healthCard View.infoCard View.messageCard].
  rewrite Hidle, Hh, Hi, Hm. repeat split.
Qed.

Lemma screen_before_first_success_witness :
  View.healthCard
    (View.render (fun s => s) (fun _ => "12:00:00")
       (Session.run [Samples.network_down; Samples.info_500]
          (App.initial 1704067199000)))
  = View.HealthStatus "Disconnected" None.
Proof.
  apply (screen_before_first_success (fun s => s) (fun _ => "12:00:00")
           [Samples.network_down; Samples.info_500] 1704067199000).
  - repeat constructor.
  - reflexivity.
Defined.

(* ===================================================================== *)
(** ** Further properties of the info provider *)
(* ===================================================================== *)

Section ProviderFacts.

Lemma length_append (a b : string) :
  String.length (a +:+ b) = (String.length a + String.length b)%nat.
Proof. induction a as [| c a IH]; simpl; [reflexivity | rewrite IH; reflexivity]. Qed.

Lemma pad_length (width count : nat) (a : Z) :
  (0 < count)%nat ->
  all_from (pad_step width) 0 count = true ->
  0 <= a <= Z.of_nat count ->
  String.length (JS.pad width a) = width.
Proof.
  intros Hpos Hall Ha.
  destruct (pad_field width count Hpos Hall a a Ha Ha) as [Hlen _].
  exact Hlen.
Qed.

(** Within the four-digit years a rendered instant has 24 characters. *)
Lemma toISOString_length (t : Z) :
  four_digit_years t -> String.length (JS.Date_toISOString t) = 24%nat.
Proof.
  intros R.
  destruct (four_digit_years_day t R) as [Hd [Hms _]].
  pose proof (civil_from_days_range (t / JS.msPerDay)) as [Hm Hdd].
  pose proof (civil_from_days_year _ Hd) as Hy.
  destruct (JS.civil_from_days (t / JS.msPerDay)) as [[y m] d] eqn:E.
  rewrite (toISOString_fields t y m d E). cbn [fst snd] in *.
  destruct (time_of_day _ Hms) as [Hh [Hmi [Hs [Hf _]]]].
  assert (JS.year_string y = JS.pad 4 y) as ->.
  { unfold JS.year_string.
    replace ((0 <=? y) && (y <=? 9999)) with true; [reflexivity |].
    symmetry. apply andb_true_iff. split; apply Z.leb_le; lia. }
  rewrite !length_append.
  rewrite (pad_length 4 (Z.to_nat 9999) y ltac:(lia) pad4_checked)
    by lia.
  rewrite !(pad_length 2 99 _ ltac:(lia) pad2_checked) by lia.
  rewrite (pad_length 3 999 _ ltac:(lia) pad3_checked) by lia.
  reflexivity.
Qed.

End ProviderFacts.

(** X12. A [NODE_ENV] that is set and not empty is reported as it is. *)
Theorem getInfo_environment_as_set (p : Process.t) (value : string) :
  Process.env p !! "NODE_ENV" = Some value ->
  value <> EmptyString ->
  AppService.environment (AppController.getInfo p) = value.
Proof.
  intros Hset Hne. simpl. rewrite Hset.
  destruct value; [contradiction | reflexivity].
Qed.

Lemma getInfo_environment_as_set_witness :
  AppService.environment
    (AppController.getInfo
       (setenv "NODE_ENV" "staging" sample_process)) = "staging".
Proof.
  apply (getInfo_environment_as_set
           (setenv "NODE_ENV" "staging" sample_process) "staging").
  - vm_compute. reflexivity.
  - discriminate.
Defined.

(** X13. The service information reads the environment through [NODE_ENV]
    only, and neither the clock nor the uptime: two processes with the
    same [NODE_ENV] and the same runtime version answer the same, so
    setting or removing any other variable changes nothing. *)
Theorem getInfo_reads_NODE_ENV_only (p1 p2 : Process.t) (k v : string) :
  (Process.env p1 !! "NODE_ENV" = Process.env p2 !! "NODE_ENV" ->
   Process.version p1 = Process.version p2 ->
   AppController.getInfo p1 = AppController.getInfo p2) /\
  (k <> "NODE_ENV" ->
   AppController.getInfo (setenv k v p1) = AppController.getInfo p1 /\
   AppController.getInfo (unsetenv k p1) = AppController.getInfo p1).
Proof.
  split.
  - intros Henv Hver. unfold AppController.getInfo, AppService.getInfo.
    rewrite Henv, Hver. reflexivity.
  - intros Hk. unfold AppController.getInfo, AppService.getInfo, setenv,
      unsetenv. cbn [Process.env Process.version].
    rewrite lookup_insert_ne by exact Hk.
    rewrite lookup_delete_ne by exact Hk. split; reflexivity.
Qed.

Lemma getInfo_reads_NODE_ENV_only_witness :
  AppController.getInfo sample_process
    = AppController.getInfo sample_process_later /\
  AppController.getInfo (setenv "PORT" "3000" sample_process)
    = AppController.getInfo sample_process /\
  AppController.getInfo (unsetenv "PORT" sample_process)
    = AppController.getInfo sample_process.
Proof.
  split.
  - apply (proj1 (getInfo_reads_NODE_ENV_only
                    sample_process sample_process_later "PORT" "3000"));
      reflexivity.
  - apply (proj2 (getInfo_reads_NODE_ENV_only
                    sample_process sample_process_later "PORT" "3000")).
    discriminate.
Defined.

(** X14. For clocks within the four-digit years the health timestamp has
    24 characters, and a snapshot taken at a later millisecond carries a
    timestamp that is later in the order of strings: no two snapshots
    taken at different instants share a timestamp. *)
Theorem getHealth_timestamp_increasing (p1 p2 : Process.t) :
  four_digit_years (Process.now p1) ->
  four_digit_years (Process.now p2) ->
  Process.now p1 < Process.now p2 ->
  String.length (AppService.timestamp (AppController.getHealth p1)) = 24%nat /\
  String.compare (AppService.timestamp (AppController.getHealth p1))
                 (AppService.timestamp (AppController.getHealth p2)) = Lt /\
  AppService.timestamp (AppController.getHealth p1)
    <> AppService.timestamp (AppController.getHealth p2).
Proof.
  intros R1 R2 Hlt. simpl.
  pose proof (toISOString_increasing _ _ R1 R2 Hlt) as Hcmp.
  split; [apply toISOString_length; exact R1 |]. split; [exact Hcmp |].
  intros Heq. rewrite Heq, compare_refl in Hcmp. discriminate.
Qed.

Lemma getHealth_timestamp_increasing_witness :
  String.length
    (AppService.timestamp (AppController.getHealth sample_process)) = 24%nat /\
  String.compare
    (AppService.timestamp (AppController.getHealth sample_process))
    (AppService.timestamp (AppController.getHealth sample_process_later))
    = Lt /\
  AppService.timestamp (AppController.getHealth sample_process)
    <> AppService.timestamp (AppController.getHealth sample_process_later).
Proof.
  apply (getHealth_timestamp_increasing sample_process sample_process_later);
    unfold four_digit_years; simpl; lia.
Defined.

(* ===================================================================== *)
(** ** Further properties of the uptime text *)
(* ===================================================================== *)

Section UptimeFacts.

Local Open Scope Q_scope.

Lemma formatUptime_fields (s : Q) :
  App.formatUptime s = uptime_text (uptime_fields s).
Proof. reflexivity. Qed.

(** The three numbers, for a non-negative number of seconds, by whole
    division of the whole seconds. *)
Lemma uptime_fields_nonneg (s : Q) :
  0 <= s ->
  uptime_fields s
  = ((Qfloor s / 3600)%Z, (Qfloor s mod 3600 / 60)%Z, (Qfloor s mod 60)%Z).
Proof.
  intros Hs. unfold uptime_fields.
  destruct (uptime_parts s Hs) as [-> [-> ->]]. reflexivity.
Qed.

Lemma Qfloor_nonneg (s : Q) : 0 <= s -> (0 <= Qfloor s)%Z.
Proof.
  intros Hs. change 0%Z with (Qfloor 0). apply Qfloor_resp_le. exact Hs.
Qed.

End UptimeFacts.

(** X15. Two uptimes that are binary64 values from 0 up to 2^57, 2^57
    left out, are shown by the same text exactly when they have the same
    number of whole seconds: there the text loses the fraction of a second
    and nothing else, whatever the divisions round. *)
Theorem formatUptime_same_text (rnd : Q -> Q) (a b : Q) :
  Rounded.binary64 rnd ->
  Rounded.below_2_57 a -> Rounded.below_2_57 b ->
  (Rounded.formatUptime rnd a = Rounded.formatUptime rnd b
   <-> Qfloor a = Qfloor b).
Proof.
  intros Hrnd Ha Hb.
  rewrite (rounded_text rnd Hrnd a Ha), (rounded_text rnd Hrnd b Hb).
  rewrite !formatUptime_fields.
  rewrite (uptime_fields_nonneg a (below_nonneg a Ha)),
    (uptime_fields_nonneg b (below_nonneg b Hb)).
  split.
  - intros Htext. apply uptime_text_inj in Htext.
    injection Htext as Hh Hm Hs.
    revert Hh Hm Hs. generalize (Qfloor a) (Qfloor b). intros x y Hh Hm Hs.
    Z.div_mod_to_equations. lia.
  - intros ->. reflexivity.
Qed.

Lemma formatUptime_same_text_witness :
  Rounded.formatUptime Rounded.nearest (14645 # 4)
    = Rounded.formatUptime Rounded.nearest (14647 # 4).
Proof.
  assert (Rounded.below_2_57 (14645 # 4)) as Ha
    by (exists 14645, (-2); split; [lia | split; [lia | reflexivity]]).
  assert (Rounded.below_2_57 (14647 # 4)) as Hb
    by (exists 14647, (-2); split; [lia | split; [lia | reflexivity]]).
  apply (proj2 (formatUptime_same_text Rounded.nearest _ _
                  nearest_binary64 Ha Hb)).
  reflexivity.
Defined.

(** X16. A longer uptime never reads as a shorter one: for binary64
    values [a <= b] from 0 up to 2^57, 2^57 left out, the hours, minutes
    and seconds shown for [a] come at or before those shown for [b], hours
    deciding first. *)
Theorem formatUptime_monotone (rnd : Q -> Q) (a b : Q) :
  Rounded.binary64 rnd ->
  Rounded.below_2_57 a -> Rounded.below_2_57 b ->
  (a <= b)%Q ->
  Rounded.formatUptime rnd a = uptime_text (Rounded.uptime_fields rnd a) /\
  Rounded.formatUptime rnd b = uptime_text (Rounded.uptime_fields rnd b) /\
  fields_le (Rounded.uptime_fields rnd a) (Rounded.uptime_fields rnd b).
Proof.
  intros Hrnd Ha Hb Hab.
  split; [reflexivity |]. split; [reflexivity |].
  rewrite (rounded_fields rnd Hrnd a Ha), (rounded_fields rnd Hrnd b Hb).
  rewrite (uptime_fields_nonneg a (below_nonneg a Ha)),
    (uptime_fields_nonneg b (below_nonneg b Hb)).
  pose proof (Qfloor_resp_le _ _ Hab) as Hle.
  pose proof (Qfloor_nonneg a (below_nonneg a Ha)) as Hx.
  revert Hle Hx. generalize (Qfloor a) (Qfloor b). intros x y Hle Hx.
  unfold fields_le. Z.div_mod_to_equations. lia.
Qed.

Lemma formatUptime_monotone_witness :
  fields_le (Rounded.uptime_fields Rounded.nearest (7199 # 2))
            (Rounded.uptime_fields Rounded.nearest 3600).
Proof.
  apply (formatUptime_monotone Rounded.nearest (7199 # 2) 3600
           nearest_binary64).
  - exists 7199, (-1). split; [lia | split; [lia | reflexivity]].
  - exists 3600, 0. split; [lia | split; [lia | reflexivity]].
  - vm_compute. discriminate.
Defined.

(** Below zero the three numbers are each rounded down, so they can reach
    -60 and do not add up to the input. *)
Example formatUptime_minus_sixty :
  App.formatUptime (-59.5) = "-1h -1m -60s" /\
  Double.formatUptime (S754_finite true 119 (-1)) = Some "-1h -1m -60s".
Proof. vm_compute. split; reflexivity. Qed.

(* ===================================================================== *)
(** ** The addresses, and the dashboard in front of the backend *)
(* ===================================================================== *)

Lemma append_inv_head (a x y : string) : a +:+ x = a +:+ y -> x = y.
Proof.
  induction a as [| c a IH]; simpl; intros H; [exact H |].
  injection H as H. apply IH. exact H.
Qed.

(** X18. The base address is never empty: it is [VITE_API_URL] when that
    is set and not empty, and "http://localhost:3000" otherwise; and the
    three addresses a cycle requests are three different ones. *)
Theorem API_URL_never_empty (configured : option string) :
  View.API_URL configured <> EmptyString /\
  (configured = None \/ configured = Some EmptyString ->
   View.API_URL configured = "http://localhost:3000") /\
  (forall url, configured = Some url -> url <> EmptyString ->
               View.API_URL configured = url) /\
  NoDup (View.requested configured).
Proof.
  split; [| split; [| split]].
  - apply or_else_nonempty. discriminate.
  - apply or_else_falsy.
  - intros url -> Hne. destruct url; [contradiction | reflexivity].
  - unfold View.requested.
    repeat constructor; rewrite ?list_elem_of_In; simpl;
      intros H; repeat (destruct H as [H | H]); try exact H;
      apply append_inv_head in H; discriminate.
Qed.

Lemma API_URL_never_empty_witness :
  View.API_URL (Some EmptyString) = "http://localhost:3000" /\
  View.API_URL (Some "http://backend:3000") = "http://backend:3000".
Proof.
  split.
  - apply (proj1 (proj2 (API_URL_never_empty (Some EmptyString)))).
    right. reflexivity.
  - apply (proj1 (proj2 (proj2
             (API_URL_never_empty (Some "http://backend:3000"))))).
    + reflexivity.
    + discriminate.
Defined.

(** X19. A cycle whose three requests are answered by the backend's
    controller, whatever the state of the backend process and whatever the
    dashboard showed before: run with no other cycle between its steps, it
    ends normally with no error and no banner; the badge reads
    "Connected", the uptime shown is that of the process, the service
    information is the backend's with a non-empty environment, and the
    message is the backend's greeting. When other cycles run between its
    steps, its last step shows the same badge and cards, and leaves the
    error, and so the banner, as the other cycles set them. The uptime
    text is that of the exact computation, which is what the rounded
    divisions give for an uptime of the process that is a binary64 value
    from 0 up to 2^57, 2^57 left out. *)
Theorem dashboard_of_backend (timestampText : string -> string)
    (instantText : Z -> string) (ph pi : Process.t) (clock : Z)
    (st : App.ViewState) :
  let w := Wire.served ph pi clock in
  let st' := App.refreshed w st in
  let page := View.render timestampText instantText st' in
  let health_card :=
    View.HealthStatus "Connected"
      (Some (App.formatUptime (Process.uptime ph),
             timestampText (JS.Date_toISOString (Process.now ph)))) in
  let info_card :=
    View.InfoList "K8s CI/CD Lab Backend" "v1.0.0"
      (JS.or_else (Process.env pi !! "NODE_ENV") "development")
      (Process.version pi) in
  let message_card :=
    View.MessageContent "Hello from NestJS Backend!"
      ("Last updated: " +:+ instantText clock) in
  (App.completion w st = App.Normal tt /\
   App.error st' = None /\
   View.isConnected st' = true /\
   View.banner page = None /\
   View.healthCard page = health_card /\
   View.infoCard page = info_card /\
   JS.or_else (Process.env pi !! "NODE_ENV") "development" <> EmptyString /\
   View.messageCard page = message_card) /\
  (forall (sys : Overlap.System) (n : nat),
     Overlap.tasks sys !! n
       = Some {| Overlap.cycle := w;
                 Overlap.point := Overlap.AtMessageText |} ->
     exists sys' : Overlap.System,
       Overlap.step (Overlap.Resume n) sys = Some sys' /\
       View.isConnected (Overlap.view sys') = true /\
       View.healthCard
         (View.render timestampText instantText (Overlap.view sys'))
         = health_card /\
       View.infoCard
         (View.render timestampText instantText (Overlap.view sys'))
         = info_card /\
       View.messageCard
         (View.render timestampText instantText (Overlap.view sys'))
         = message_card /\
       App.error (Overlap.view sys') = App.error (Overlap.view sys) /\
       View.banner
         (View.render timestampText instantText (Overlap.view sys'))
         = View.render_banner (Overlap.view sys)) /\
  (forall rnd : Q -> Q,
     Rounded.binary64 rnd ->
     Rounded.below_2_57 (Process.uptime ph) ->
     App.formatUptime (Process.uptime ph)
       = Rounded.formatUptime rnd (Process.uptime ph)).
Proof.
  cbv zeta. split; [| split].
  - repeat split; try reflexivity.
    apply or_else_nonempty. discriminate.
  - intros sys n Htask.
    rewrite (final_step sys n (Wire.served ph pi clock) _ _ _ _ _ _
               eq_refl eq_refl eq_refl eq_refl Htask).
    eexists. split; [reflexivity |].
    repeat split; reflexivity.
  - intros rnd Hrnd Hup. symmetry. apply (rounded_text rnd Hrnd _ Hup).
Qed.
